(** * Verification of [lib/fb/jni/Environment.cpp]

    The file embeds the native side of the JNI bridge: the process-wide VM
    handle [g_vm], the per-thread cache [g_env], [Environment::current] and
    the callback bridge [JThreadScopeSupport] ([runStdFunction],
    [runStdFunctionImpl], [OnLoad]).

    Pointers and handles are integers ([Z]), [nullptr] is [0].  A [jlong] is
    a signed 64-bit integer.  The managed runtime (thread attachment, class
    and method lookup, native-method registration) is not part of the
    translation unit; it is modelled from the interface the specification
    gives for it. *)

From Stdlib Require Import ZArith Lia String List.
From stdpp Require Import base option gmap strings list fin_maps.

Local Open Scope Z_scope.

(** A native thread is identified by a number. *)
Definition thread := nat.

Definition nullptr : Z := 0.

(* ===================================================================== *)
(** * Pointer/integer casts: the callback token *)
(* ===================================================================== *)

Module Token.

(** Width of a native pointer on the target ABI. *)
Inductive PtrWidth := P32 | P64.

(** How the compiler widens a pointer that is narrower than the integer
    it is cast to (implementation-defined in C++). *)
Inductive Widening := SignExtend | ZeroExtend.

Record Abi := { width : PtrWidth; widening : Widening }.

Definition ptr_bits (abi : Abi) : Z :=
  match width abi with P32 => 32 | P64 => 64 end.

(** A well-formed object address on [abi]. *)
Definition valid_ptr (abi : Abi) (p : Z) : Prop := 0 <= p < 2 ^ ptr_bits abi.

Definition valid_ptrb (abi : Abi) (p : Z) : bool :=
  (0 <=? p) && (p <? 2 ^ ptr_bits abi).

(** Two's-complement reading of the low [n] bits of [z]. *)
Definition signed (n z : Z) : Z :=
  (z + 2 ^ (n - 1)) mod 2 ^ n - 2 ^ (n - 1).

(** The range of [jlong]. *)
Definition is_jlong (t : Z) : Prop := - 2 ^ 63 <= t < 2 ^ 63.

(** [reinterpret_cast<jlong>(&func)]: the pointer's bits, widened to 64
    bits when the pointer is narrower, read as a signed 64-bit integer. *)
Definition ptr_to_jlong (abi : Abi) (p : Z) : Z :=
  match widening abi with
  | SignExtend => signed 64 (signed (ptr_bits abi) p)
  | ZeroExtend => signed 64 p
  end.

(** [reinterpret_cast<std::function<void()>*>(ptr)]: the low pointer-width
    bits of the integer. *)
Definition jlong_to_ptr (abi : Abi) (t : Z) : Z := t mod 2 ^ ptr_bits abi.

End Token.

(* ===================================================================== *)
(** * The managed runtime (external collaborator) *)
(* ===================================================================== *)

Module Jvm.

(** JNI type descriptors, as far as this unit needs them. *)
Inductive JType := JVoid | JLong | JInt | JBoolean.

Definition type_descriptor (ty : JType) : string :=
  match ty with
  | JVoid => "V" | JLong => "J" | JInt => "I" | JBoolean => "Z"
  end.

(** The descriptor the templates derive from a C++ function type:
    [void(jlong)] gives ["(J)V"]. *)
Definition method_descriptor (args : list JType) (ret : JType) : string :=
  String.append "("
    (String.append (String.concat "" (List.map type_descriptor args))
                   (String.append ")" (type_descriptor ret))).

(** A method of a managed class: its name and its descriptor. *)
Definition JMethod : Type := string * string.

Definition same_method (m1 m2 : JMethod) : bool :=
  String.eqb (fst m1) (fst m2) && String.eqb (snd m1) (snd m2).

Definition declares (ms : list JMethod) (m : JMethod) : bool :=
  existsb (same_method m) ms.

(** A managed class as the native side sees it: the static methods it
    defines and the native method stubs it declares. *)
Record ManagedClass := {
  static_methods : list JMethod;
  native_stubs : list JMethod
}.

(** The native entry points of this translation unit. *)
Inductive NativeFn := RunStdFunctionImpl.

(** Modelled from the spec: the managed runtime of section 6, which is not
    part of the translation unit.  It knows which threads are attached and
    the interop handle of each (a [JNIEnv*], never null), the loaded
    classes, and which native stubs have been bound to a native function. *)
Record JavaVM := {
  attached : gmap thread positive;
  classes : gmap string ManagedClass;
  bound : gmap (string * JMethod) NativeFn
}.

Definition JNI_OK : Z := 0.
Definition JNI_EDETACHED : Z := -2.

(** Modelled from the spec: "resolve interop handle for calling thread ->
    handle or not-attached indicator".  A query: the VM is not changed.
    Returns the status and the value stored through the out-parameter. *)
Definition GetEnv (vm : JavaVM) (t : thread) : Z * Z :=
  match attached vm !! t with
  | Some e => (JNI_OK, Z.pos e)
  | None => (JNI_EDETACHED, nullptr)
  end.

(** The handle the VM gives a thread it attaches. *)
Definition fresh_env (t : thread) : positive := Pos.of_succ_nat t.

Definition with_attached (a : gmap thread positive) (vm : JavaVM) : JavaVM :=
  {| attached := a; classes := classes vm; bound := bound vm |}.

Definition with_bound (b : gmap (string * JMethod) NativeFn) (vm : JavaVM) : JavaVM :=
  {| attached := attached vm; classes := classes vm; bound := b |}.

(** Modelled from the spec: invoking a managed method from native code
    "attaches the calling thread to the VM for the duration of the call if
    it was not already attached". *)
Definition enter (t : thread) (vm : JavaVM) : JavaVM :=
  match attached vm !! t with
  | Some _ => vm
  | None => with_attached (<[t := fresh_env t]> (attached vm)) vm
  end.

(** Leaving the managed call restores the attachment the thread had
    before it ([was]). *)
Definition leave (t : thread) (was : option positive) (vm : JavaVM) : JavaVM :=
  match was with
  | Some _ => vm
  | None => with_attached (delete t (attached vm)) vm
  end.

(** Class lookup followed by static-method lookup. *)
Definition find_static_method (vm : JavaVM) (cls : string) (m : JMethod)
  : option JMethod :=
  match classes vm !! cls with
  | Some c => if declares (static_methods c) m then Some m else None
  | None => None
  end.

(** Modelled from the spec: "binding a named/typed native function to a
    managed method stub"; "a mismatch (wrong signature, wrong name) must be
    caught as a rejected load".  Every method of the batch must match a
    stub the class declares, else nothing is bound. *)
Definition RegisterNatives (vm : JavaVM) (cls : string)
    (methods : list (JMethod * NativeFn)) : option JavaVM :=
  match classes vm !! cls with
  | Some c =>
      if forallb (fun mf => declares (native_stubs c) (fst mf)) methods
      then Some (with_bound
                   (foldr (fun mf b => <[(cls, fst mf) := snd mf]> b)
                          (bound vm) methods) vm)
      else None
  | None => None
  end.

End Jvm.

(* ===================================================================== *)
(** * Process state *)
(* ===================================================================== *)

(** A [std::function<void()>] handed to the bridge: native code that may
    update state it shares with its creator (a counter) and may call the
    public [Environment::current()], continuing with the handle it gets. *)
Inductive StdFunction :=
| Return
| Increment (k : StdFunction)
| CallCurrent (k : Z -> StdFunction).

(** What an observer of the process can see happen. *)
Inductive Event :=
| EvLogError (msg : string)          (* FBLOGE *)
| EvGetEnv (t : thread)              (* g_vm->GetEnv issued on thread t *)
| EvLookup (t : thread)              (* getStaticMethod issued on thread t *)
| EvInvoke (t : thread) (p : Z)      (* the closure at address p is called on t *)
| EvCurrent (t : thread) (h : Z).    (* a closure on t got h from current() *)

(** The two globals of lines 24 and 25.  [g_env] is a [StaticInitialized]
    wrapper: there is no [ThreadLocal] behind it until it is initialized,
    and nothing in the listing initializes it.  [g_vm] is null until the unit
    is initialized.  Modelled from the spec: the initialization of the unit
    ([registerVM], section 4.1) sets up both, so a VM handle is never there
    without the thread-local store. *)
Inductive Globals :=
| BeforeInit                                   (* g_vm null, g_env holds nothing *)
| AfterInit (vm : Z) (slots : gmap thread Z).  (* JavaVM* g_vm; one slot per thread *)

Record World := {
  abi : Token.Abi;                    (* the platform the process runs on *)
  globals : Globals;                  (* g_vm and g_env *)
  jvm : Jvm.JavaVM;                   (* the managed runtime *)
  method_static : option Jvm.JMethod; (* [static auto method] of runStdFunction *)
  heap : gmap Z StdFunction;          (* live std::function objects, by address *)
  counter : Z;                        (* state the closures share *)
  trace : list Event                  (* events so far, oldest first *)
}.

(** [JavaVM* g_vm]. *)
Definition g_vm (w : World) : Z :=
  match globals w with
  | BeforeInit => nullptr
  | AfterInit vm _ => vm
  end.

(** The slots of [g_env]; none before the initialization. *)
Definition g_env (w : World) : gmap thread Z :=
  match globals w with
  | BeforeInit => ∅
  | AfterInit _ slots => slots
  end.

(** Whether there is a [ThreadLocal] behind [g_env]. *)
Definition g_env_initialized (w : World) : bool :=
  match globals w with
  | BeforeInit => false
  | AfterInit _ _ => true
  end.

Definition set_globals (g : Globals) (w : World) : World :=
  {| abi := abi w; globals := g; jvm := jvm w;
     method_static := method_static w; heap := heap w;
     counter := counter w; trace := trace w |}.

(** Writing [g_vm]; what the initialization of the unit does, so the
    thread-local store is there afterwards. *)
Definition set_g_vm (v : Z) (w : World) : World :=
  set_globals (AfterInit v (g_env w)) w.

(** Writing the slots of an initialized [g_env]. *)
Definition set_g_env (e : gmap thread Z) (w : World) : World :=
  set_globals (AfterInit (g_vm w) e) w.

Definition set_jvm (vm : Jvm.JavaVM) (w : World) : World :=
  {| abi := abi w; globals := globals w; jvm := vm;
     method_static := method_static w; heap := heap w;
     counter := counter w; trace := trace w |}.

Definition set_method_static (m : option Jvm.JMethod) (w : World) : World :=
  {| abi := abi w; globals := globals w; jvm := jvm w;
     method_static := m; heap := heap w;
     counter := counter w; trace := trace w |}.

Definition set_counter (c : Z) (w : World) : World :=
  {| abi := abi w; globals := globals w; jvm := jvm w;
     method_static := method_static w; heap := heap w;
     counter := c; trace := trace w |}.

Definition emit (e : Event) (w : World) : World :=
  {| abi := abi w; globals := globals w; jvm := jvm w;
     method_static := method_static w; heap := heap w;
     counter := counter w; trace := trace w ++ [e] |}.

(** The failure conditions of section 7 that do not return to the caller,
    the access through [g_env] before it is initialized, and the undefined
    behaviour of calling through a pointer to no object. *)
Inductive Failure := WiringFailure | DoubleRegistration | UseBeforeInit | WildPointer.

(** An operation either returns a value in a new state or does not return. *)
Inductive Outcome (A : Type) :=
| Ok (a : A) (w : World)
| Fatal (e : Failure) (w : World).
Arguments Ok {A} a w.
Arguments Fatal {A} e w.

Definition bind {A B : Type} (r : Outcome A) (k : A -> World -> Outcome B)
  : Outcome B :=
  match r with
  | Ok a w => k a w
  | Fatal e w => Fatal e w
  end.

Definition world_of {A : Type} (r : Outcome A) : World :=
  match r with Ok _ w => w | Fatal _ w => w end.

Definition returned {A : Type} (r : Outcome A) : option A :=
  match r with Ok a _ => Some a | Fatal _ _ => None end.

(** Projections of the trace. *)
Definition is_query (e : Event) : bool :=
  match e with EvGetEnv _ => true | _ => false end.
Definition is_lookup (e : Event) : bool :=
  match e with EvLookup _ => true | _ => false end.
Definition is_log (e : Event) : bool :=
  match e with EvLogError _ => true | _ => false end.

Definition vm_queries (w : World) : nat := length (List.filter is_query (trace w)).
Definition lookups (w : World) : nat := length (List.filter is_lookup (trace w)).
Definition logged (w : World) : list Event := List.filter is_log (trace w).

(** The calls [runStdFunctionImpl] made, as (thread, closure address). *)
Fixpoint invocations (tr : list Event) : list (thread * Z) :=
  match tr with
  | [] => []
  | EvInvoke t p :: tr' => (t, p) :: invocations tr'
  | _ :: tr' => invocations tr'
  end.

(** The handles closures got from [current()]. *)
Fixpoint handles_seen (tr : list Event) : list Z :=
  match tr with
  | [] => []
  | EvCurrent _ h :: tr' => h :: handles_seen tr'
  | _ :: tr' => handles_seen tr'
  end.

(* ===================================================================== *)
(** * EnvironmentRegistry: [g_vm], [g_env], [Environment::current] *)
(* ===================================================================== *)

Module Environment.

(** The content of the slot of thread [t]: null when the slot was never
    set, and when there is no store yet. *)
Definition tls_get (t : thread) (w : World) : Z :=
  default nullptr (g_env w !! t).

(** [g_env->get()] on thread [t].  The arrow goes through the
    [StaticInitialized] wrapper: before the initialization there is no
    object to call [get()] on and the access does not return. *)
Definition g_env_get (t : thread) (w : World) : Outcome Z :=
  if g_env_initialized w then Ok (tls_get t w) w else Fatal UseBeforeInit w.

(** [g_env->reset(env)]: stores into the calling thread's slot. *)
Definition tls_reset (t : thread) (env : Z) (w : World) : World :=
  set_g_env (<[t := env]> (g_env w)) w.

Definition not_attached_msg : string :=
  "Error retrieving JNI Environment, thread is probably not attached to JVM".

(** [JNIEnv* Environment::current()], called on thread [t].

    The listing of the function ends after the error log of the failing
    branch.  Modelled from the spec for the remainder: on success the
    resolved handle is cached in thread-local storage and returned
    (section 4.1, step 4); on failure the caller gets a result it can tell
    from a resolved handle (step 3), here the handle the branch holds, which
    is null: the function returns a [JNIEnv*] and the branch does not
    throw. *)
Definition current (t : thread) (w : World) : Outcome Z :=
  bind (g_env_get t w) (fun env w =>
    if (env =? nullptr) && negb (g_vm w =? nullptr) then
      let '(status, env') := Jvm.GetEnv (jvm w) t in
      let w1 := emit (EvGetEnv t) w in
      if negb (status =? Jvm.JNI_OK) then
        Ok env' (emit (EvLogError not_attached_msg) w1)
      else
        Ok env' (tls_reset t env' w1)
    else
      Ok env w).

(** Modelled from the spec: [registerVM] is not part of the listing
    (section 4.1: "Fails (is a programming error, not a runtime error) if
    called more than once with a different handle; idempotent if called
    again with the same handle.  Side effect: publishes the process-wide VM
    handle for all threads").  It is the initialization of the unit: the
    first call sets up the thread-local store as well. *)
Definition registerVM (h : Z) (w : World) : Outcome unit :=
  if g_vm w =? nullptr then Ok tt (set_g_vm h w)
  else if g_vm w =? h then Ok tt w
  else Fatal DoubleRegistration w.

End Environment.

(* ===================================================================== *)
(** * CallbackBridge: [JThreadScopeSupport] *)
(* ===================================================================== *)

Module JThreadScopeSupport.

Definition kJavaDescriptor : string := "Lcom/facebook/jni/ThreadScopeSupport;".

(** The managed dispatch method, [getStaticMethod<void(jlong)>("runStdFunction")]. *)
Definition dispatch_method : Jvm.JMethod :=
  ("runStdFunction", Jvm.method_descriptor [Jvm.JLong] Jvm.JVoid).

(** The stub [makeNativeMethod("runStdFunctionImpl", runStdFunctionImpl)]
    names; the descriptor comes from the type of [runStdFunctionImpl]
    without its receiver: [void(jlong)]. *)
Definition reentry_stub : Jvm.JMethod :=
  ("runStdFunctionImpl", Jvm.method_descriptor [Jvm.JLong] Jvm.JVoid).

(** Running the body of a closure on thread [t]. *)
Fixpoint call (t : thread) (f : StdFunction) (w : World) : Outcome unit :=
  match f with
  | Return => Ok tt w
  | Increment k => call t k (set_counter (counter w + 1) w)
  | CallCurrent k =>
      bind (Environment.current t w)
           (fun h w' => call t (k h) (emit (EvCurrent t h) w'))
  end.

(** [static void runStdFunctionImpl(alias_ref<JClass>, jlong ptr)]:
    casts [ptr] back to a pointer to [std::function<void()>] and calls the
    object it points to. *)
Definition runStdFunctionImpl (t : thread) (ptr : Z) (w : World) : Outcome unit :=
  let p := Token.jlong_to_ptr (abi w) ptr in
  match heap w !! p with
  | Some f => call t f (emit (EvInvoke t p) w)
  | None => Fatal WildPointer w
  end.

Definition native_entry (fn : Jvm.NativeFn) : thread -> Z -> World -> Outcome unit :=
  match fn with
  | Jvm.RunStdFunctionImpl => runStdFunctionImpl
  end.

(** Modelled from the spec: the managed dispatch method and its invocation
    (section 4.2, steps 3 to 5).  The call attaches the calling thread for
    its duration; the method "performs no other work than immediately
    calling back into native code", passing the same token to the native
    method bound to its re-entry stub; control then returns to the
    caller.  A stub nobody bound cannot be called. *)
Definition invoke_dispatch (t : thread) (token : Z) (w : World) : Outcome unit :=
  let was := Jvm.attached (jvm w) !! t in
  let w1 := set_jvm (Jvm.enter t (jvm w)) w in
  match Jvm.bound (jvm w1) !! (kJavaDescriptor, reentry_stub) with
  | Some fn =>
      bind (native_entry fn t token w1)
           (fun _ w2 => Ok tt (set_jvm (Jvm.leave t was (jvm w2)) w2))
  | None => Fatal WiringFailure w1
  end.

(** The initializer of [static auto method]:
    [javaClassStatic()->getStaticMethod<void(jlong)>("runStdFunction")].
    Modelled from the spec: a failed lookup is fatal (section 4.2, error
    condition). *)
Definition resolve_method (t : thread) (w : World) : Outcome Jvm.JMethod :=
  let w1 := emit (EvLookup t) w in
  match Jvm.find_static_method (jvm w) kJavaDescriptor dispatch_method with
  | Some m => Ok m (set_method_static (Some m) w1)
  | None => Fatal WiringFailure w1
  end.

(** [static void runStdFunction(std::function<void()>&& func)], called on
    thread [t]; [func] is the address of the caller's closure object. *)
Definition runStdFunction (t : thread) (func : Z) (w : World) : Outcome unit :=
  bind (match method_static w with
        | Some m => Ok m w
        | None => resolve_method t w
        end)
       (fun method w1 =>
          invoke_dispatch t (Token.ptr_to_jlong (abi w1) func) w1).

(** [static void OnLoad()]:
    [javaClassStatic()->registerNatives({makeNativeMethod(...)})]. *)
Definition OnLoad (w : World) : Outcome unit :=
  match Jvm.RegisterNatives (jvm w) kJavaDescriptor
          [(reentry_stub, Jvm.RunStdFunctionImpl)] with
  | Some vm => Ok tt (set_jvm vm w)
  | None => Fatal WiringFailure w
  end.

End JThreadScopeSupport.

(* ===================================================================== *)
(** * Sample states *)
(* ===================================================================== *)

Module Sample.

Definition lp64 : Token.Abi :=
  {| Token.width := Token.P64; Token.widening := Token.ZeroExtend |}.
Definition ilp32 : Token.Abi :=
  {| Token.width := Token.P32; Token.widening := Token.SignExtend |}.

(** The managed class as shipped: the dispatch method and its native stub. *)
Definition support_class : Jvm.ManagedClass :=
  {| Jvm.static_methods := [("runStdFunction", "(J)V")];
     Jvm.native_stubs := [("runStdFunctionImpl", "(J)V")] |}.

(** A managed class whose stub takes an [int] instead of a [long]. *)
Definition mistyped_class : Jvm.ManagedClass :=
  {| Jvm.static_methods := [("runStdFunction", "(J)V")];
     Jvm.native_stubs := [("runStdFunctionImpl", "(I)V")] |}.

(** A managed class whose stub has another name. *)
Definition misnamed_class : Jvm.ManagedClass :=
  {| Jvm.static_methods := [("runStdFunction", "(J)V")];
     Jvm.native_stubs := [("runStdFunctionImp", "(J)V")] |}.

(** A managed class without the dispatch method. *)
Definition stripped_class : Jvm.ManagedClass :=
  {| Jvm.static_methods := [];
     Jvm.native_stubs := [("runStdFunctionImpl", "(J)V")] |}.

Definition vm_with (c : Jvm.ManagedClass) (att : gmap thread positive) : Jvm.JavaVM :=
  {| Jvm.attached := att;
     Jvm.classes := {[ JThreadScopeSupport.kJavaDescriptor := c ]};
     Jvm.bound := ∅ |}.

(** A process right after start: nothing initialized, the closures [fs]
    alive at their addresses. *)
Definition boot (a : Token.Abi) (vm : Jvm.JavaVM) (fs : gmap Z StdFunction) : World :=
  {| abi := a; globals := BeforeInit; jvm := vm;
     method_static := None; heap := fs; counter := 0; trace := [] |}.

(** A closure that bumps the shared counter and asks for the handle. *)
Definition probe : StdFunction := Increment (CallCurrent (fun _ => Return)).

(** A closure that asks for the handle three times. *)
Definition asks_thrice : StdFunction :=
  CallCurrent (fun _ => CallCurrent (fun _ => CallCurrent (fun _ => Return))).

(** Address of the VM object and of a closure object. *)
Definition vm_addr : Z := 4096.
Definition func_addr : Z := 3221225472.  (* 0xC0000000: top bit set on 32 bits *)

End Sample.

(* ===================================================================== *)
(** * Sequences of operations and interleavings *)
(* ===================================================================== *)

(** [n] calls to [current()] in a row on one thread, with their results. *)
Fixpoint current_n (n : nat) (t : thread) (w : World) : Outcome (list Z) :=
  match n with
  | O => Ok [] w
  | S n' =>
      bind (Environment.current t w) (fun h w1 =>
      bind (current_n n' t w1) (fun hs w2 => Ok (h :: hs) w2))
  end.

(** The bridge is wired in [w]: the dispatch method is cached or can be
    looked up, and the re-entry stub is bound to [runStdFunctionImpl]. *)
Definition wired (w : World) : Prop :=
  (is_Some (method_static w)
   \/ is_Some (Jvm.find_static_method (jvm w) JThreadScopeSupport.kJavaDescriptor
                 JThreadScopeSupport.dispatch_method))
  /\ Jvm.bound (jvm w)
       !! (JThreadScopeSupport.kJavaDescriptor, JThreadScopeSupport.reentry_stub)
     = Some Jvm.RunStdFunctionImpl.

(** The native stubs the managed support class declares in [w]. *)
Definition declared_stubs (w : World) : list Jvm.JMethod :=
  match Jvm.classes (jvm w) !! JThreadScopeSupport.kJavaDescriptor with
  | Some c => Jvm.native_stubs c
  | None => []
  end.

(** The operations of the unit, as a client or the loader issues them. *)
Inductive Op :=
| OpRegisterVM (h : Z)
| OpCurrent (t : thread)
| OpRunStdFunction (t : thread) (func : Z)
| OpOnLoad.

Definition perform (w : World) (op : Op) : World :=
  match op with
  | OpRegisterVM h => world_of (Environment.registerVM h w)
  | OpCurrent t => world_of (Environment.current t w)
  | OpRunStdFunction t func => world_of (JThreadScopeSupport.runStdFunction t func w)
  | OpOnLoad => world_of (JThreadScopeSupport.OnLoad w)
  end.

Definition perform_all (ops : list Op) (w : World) : World := foldl perform w ops.

(** Threads running [runStdFunction] concurrently.  A call is cut at the
    declaration [static auto method = ...]: C++11 initializes a
    function-local static under a guard, the first thread to reach the
    declaration runs the initializer and any other thread reaching it
    meanwhile waits; an initializer that fails leaves the variable
    uninitialized for the next thread to try. *)
Module Interleaving.
Import JThreadScopeSupport.

(** Where a thread stands inside [runStdFunction]. *)
Inductive Pc :=
| AtInit (func : Z)                      (* reaching the declaration of [method] *)
| Resolving (func : Z)                   (* holding the guard, running the initializer *)
| HasMethod (func : Z) (m : Jvm.JMethod). (* past the declaration, about to invoke [m] *)

Record Sys := {
  world : World;
  initializing : option thread;          (* the holder of the guard *)
  pcs : gmap thread Pc;                  (* the threads inside [runStdFunction] *)
  stores : list (thread * Jvm.JMethod);  (* the initializations of [method] completed *)
  failed : list thread                   (* the initializers that ended in a failure *)
}.

Definition start (w : World) : Sys :=
  {| world := w; initializing := None; pcs := ∅; stores := []; failed := [] |}.

(** What the scheduler lets happen next. *)
Inductive Action :=
| Enter (t : thread) (func : Z)   (* thread [t] calls [runStdFunction(func)] *)
| Advance (t : thread).           (* thread [t] runs up to its next cut *)

(** Thread [t] runs up to its next cut.  At the declaration it reads the
    initialized [method], or takes the guard of the uninitialized one, or
    waits for the holder of the guard.  The holder runs the initializer: a
    method found is stored and the guard released; when the lookup fails the
    variable stays uninitialized, the guard is released, which lets the next
    caller try again, and the call of [t] is over.  Past the declaration
    the thread makes the managed call and leaves [runStdFunction]. *)
Definition advance (t : thread) (s : Sys) : Sys :=
  match pcs s !! t with
  | None => s
  | Some (AtInit func) =>
      match method_static (world s) with
      | Some m =>
          {| world := world s; initializing := initializing s;
             pcs := <[t := HasMethod func m]> (pcs s);
             stores := stores s; failed := failed s |}
      | None =>
          match initializing s with
          | None =>
              {| world := world s; initializing := Some t;
                 pcs := <[t := Resolving func]> (pcs s);
                 stores := stores s; failed := failed s |}
          | Some _ => s
          end
      end
  | Some (Resolving func) =>
      match resolve_method t (world s) with
      | Ok m w' =>
          {| world := w'; initializing := None;
             pcs := <[t := HasMethod func m]> (pcs s);
             stores := stores s ++ [(t, m)]; failed := failed s |}
      | Fatal _ w' =>
          {| world := w'; initializing := None;
             pcs := delete t (pcs s);
             stores := stores s; failed := failed s ++ [t] |}
      end
  | Some (HasMethod func m) =>
      {| world := world_of (invoke_dispatch t (Token.ptr_to_jlong (abi (world s)) func)
                              (world s));
         initializing := initializing s;
         pcs := delete t (pcs s);
         stores := stores s; failed := failed s |}
  end.

Definition step (s : Sys) (a : Action) : Sys :=
  match a with
  | Enter t func =>
      match pcs s !! t with
      | None =>
          {| world := world s; initializing := initializing s;
             pcs := <[t := AtInit func]> (pcs s);
             stores := stores s; failed := failed s |}
      | Some _ => s
      end
  | Advance t => advance t s
  end.

Definition run (sched : list Action) (s : Sys) : Sys := foldl step s sched.

(** The state a schedule leads to from a process in state [w]. *)
Definition reached (w : World) (sched : list Action) : Sys := run sched (start w).

(** One call of thread [t], run through its cuts without interruption. *)
Definition alone (t : thread) (func : Z) : list Action :=
  [Enter t func; Advance t; Advance t; Advance t].

(** The invariant of the guard protocol. *)
Record guard_inv (l0 : nat) (s : Sys) : Prop := {
  holder_resolving : forall t, initializing s = Some t ->
      method_static (world s) = None /\ exists f, pcs s !! t = Some (Resolving f);
  resolving_holder : forall t f, pcs s !! t = Some (Resolving f) ->
      initializing s = Some t;
  past_reads_cache : forall t f m, pcs s !! t = Some (HasMethod f m) ->
      method_static (world s) = Some m;
  stored_is_cached : forall t m, (t, m) ∈ stores s ->
      method_static (world s) = Some m;
  stored_once : (length (stores s) <= 1)%nat;
  lookups_counted :
      lookups (world s) = (l0 + length (failed s) + length (stores s))%nat
}.

End Interleaving.

(** The call that took [w] to [w'] wrote one more line to the error log. *)
Definition logs_diagnostic (w w' : World) : Prop :=
  exists msg, logged w' = logged w ++ [EvLogError msg].

(** Events a closure body can cause: it may call [current()], nothing else
    of this unit. *)
Definition from_closure (e : Event) : bool :=
  match e with
  | EvLogError _ | EvGetEnv _ | EvCurrent _ _ => true
  | EvLookup _ | EvInvoke _ _ => false
  end.

(** On thread [t], [current()] has a handle to give in [w]: the slot is set,
    or a VM handle is registered and the VM knows the thread. *)
Definition resolvable (t : thread) (w : World) : Prop :=
  Environment.tls_get t w <> nullptr
  \/ (g_vm w <> nullptr /\ is_Some (Jvm.attached (jvm w) !! t)).

(** The events of [n] calls to [current()] whose query fails, on thread [t]. *)
Fixpoint failed_queries (n : nat) (t : thread) : list Event :=
  match n with
  | O => []
  | S n' =>
      EvGetEnv t :: EvLogError Environment.not_attached_msg :: failed_queries n' t
  end.

(** Calls to [runStdFunction] one after the other, each given as the
    calling thread and the address of its closure. *)
Fixpoint run_calls (calls : list (thread * Z)) (w : World) : Outcome unit :=
  match calls with
  | [] => Ok tt w
  | (t, func) :: rest =>
      bind (JThreadScopeSupport.runStdFunction t func w)
           (fun _ w1 => run_calls rest w1)
  end.

(** Sample processes. *)
Module Process.
Import Sample.

(** Started, nothing loaded or registered; thread 1 is unknown to the VM. *)
Definition cold : World :=
  boot ilp32 (vm_with support_class ∅) {[ func_addr := probe ]}.

(** After the module was loaded. *)
Definition loaded : World := world_of (JThreadScopeSupport.OnLoad cold).

(** After the VM handle was registered as well. *)
Definition ready : World := world_of (Environment.registerVM vm_addr loaded).

(** Like [ready], on a 64-bit platform and with thread 1 attached by its
    creator, holding handle 9. *)
Definition ready_attached : World :=
  world_of (Environment.registerVM vm_addr
    (world_of (JThreadScopeSupport.OnLoad
       (boot lp64 (vm_with support_class {[ 1%nat := 9%positive ]})
             {[ func_addr := probe ]})))).

(** Like [ready], with the closure that asks three times. *)
Definition ready_thrice : World :=
  world_of (Environment.registerVM vm_addr
    (world_of (JThreadScopeSupport.OnLoad
       (boot ilp32 (vm_with support_class ∅) {[ func_addr := asks_thrice ]})))).

(** Like [ready_attached] with the closure that asks three times, after
    thread 1 has called [current()], so that its slot holds handle 9. *)
Definition cached_thrice : World :=
  world_of (Environment.current 1%nat
    (world_of (Environment.registerVM vm_addr
       (world_of (JThreadScopeSupport.OnLoad
          (boot lp64 (vm_with support_class {[ 1%nat := 9%positive ]})
                {[ func_addr := asks_thrice ]})))))).

(** The store is set up and thread 1 holds a cached handle, but the VM
    handle is null. *)
Definition cached_only : World :=
  set_globals (AfterInit nullptr {[ 1%nat := 77 ]}) cold.

End Process.

(* ===================================================================== *)
(** * The callback token *)
(* ===================================================================== *)

Section TokenFacts.
Import Token.

Lemma ptr_bits_cases (a : Abi) : ptr_bits a = 32 \/ ptr_bits a = 64.
Proof. unfold ptr_bits. destruct (width a); auto. Qed.

Lemma valid_ptrb_spec (a : Abi) (p : Z) : valid_ptrb a p = true <-> valid_ptr a p.
Proof.
  unfold valid_ptrb, valid_ptr.
  rewrite andb_true_iff, Z.leb_le, Z.ltb_lt. tauto.
Qed.

(** The token always fits a [jlong]. *)
Lemma ptr_to_jlong_range (a : Abi) (p : Z) : is_jlong (ptr_to_jlong a p).
Proof.
  unfold is_jlong, ptr_to_jlong, signed.
  destruct (widening a);
    match goal with
    | |- context [?x mod 2 ^ 64] =>
        pose proof (Z.mod_pos_bound x (2 ^ 64) ltac:(lia))
    end; lia.
Qed.

(** Casting back recovers the address, whatever the pointer width and the
    widening rule. *)
Lemma jlong_to_ptr_to_jlong (a : Abi) (p : Z) :
  valid_ptr a p -> jlong_to_ptr a (ptr_to_jlong a p) = p.
Proof.
  unfold valid_ptr, jlong_to_ptr, ptr_to_jlong, signed, ptr_bits.
  destruct (width a), (widening a); cbn; intros Hp;
    change (2 ^ 32) with 4294967296 in *;
    change (2 ^ 64) with 18446744073709551616 in *;
    change (2 ^ 63) with 9223372036854775808 in *;
    change (2 ^ 31) with 2147483648 in *;
    Z.div_mod_to_equations; lia.
Qed.

(** Distinct live addresses get distinct tokens. *)
Lemma ptr_to_jlong_inj (a : Abi) (p q : Z) :
  valid_ptr a p -> valid_ptr a q ->
  ptr_to_jlong a p = ptr_to_jlong a q -> p = q.
Proof.
  intros Hp Hq E.
  rewrite <- (jlong_to_ptr_to_jlong a p Hp), <- (jlong_to_ptr_to_jlong a q Hq).
  now rewrite E.
Qed.

End TokenFacts.

Example token_of_high_address_ilp32 :
  Token.ptr_to_jlong Sample.ilp32 Sample.func_addr = -1073741824
  /\ Token.jlong_to_ptr Sample.ilp32 (-1073741824) = Sample.func_addr.
Proof. split; reflexivity. Qed.

(* ===================================================================== *)
(** * [Environment::current] *)
(* ===================================================================== *)

Section CurrentFacts.
Import Environment.

Lemma initialized_of_g_vm (w : World) :
  g_vm w <> nullptr -> g_env_initialized w = true.
Proof.
  unfold g_vm, g_env_initialized. destruct (globals w); [contradiction | reflexivity].
Qed.

Lemma initialized_of_slot (t : thread) (w : World) :
  tls_get t w <> nullptr -> g_env_initialized w = true.
Proof.
  unfold tls_get, g_env, g_env_initialized. destruct (globals w); [| reflexivity].
  rewrite lookup_empty. contradiction.
Qed.

Lemma tls_get_reset (t : thread) (env : Z) (w : World) :
  tls_get t (tls_reset t env w) = env.
Proof. unfold tls_get, tls_reset. cbn. now rewrite lookup_insert_eq. Qed.

Lemma tls_get_emit (t : thread) (e : Event) (w : World) :
  tls_get t (emit e w) = tls_get t w.
Proof. reflexivity. Qed.

Lemma tls_get_set_g_vm (t : thread) (v : Z) (w : World) :
  tls_get t (set_g_vm v w) = tls_get t w.
Proof. reflexivity. Qed.

(** Before the initialization the first statement of [current()] ends the
    call. *)
Lemma current_before_init (t : thread) (w : World) :
  g_env_initialized w = false -> current t w = Fatal UseBeforeInit w.
Proof. intros Hi. unfold current, g_env_get. rewrite Hi. reflexivity. Qed.

(** After it, [current] is its guarded body on the slot. *)
Lemma current_after_init (t : thread) (w : World) :
  g_env_initialized w = true ->
  current t w
  = if (tls_get t w =? nullptr) && negb (g_vm w =? nullptr) then
      let '(status, env') := Jvm.GetEnv (jvm w) t in
      if negb (status =? Jvm.JNI_OK) then
        Ok env' (emit (EvLogError not_attached_msg) (emit (EvGetEnv t) w))
      else
        Ok env' (tls_reset t env' (emit (EvGetEnv t) w))
    else Ok (tls_get t w) w.
Proof. intros Hi. unfold current, g_env_get. rewrite Hi. reflexivity. Qed.

(** Cache hit: the slot is returned and nothing else happens. *)
Lemma current_hit (t : thread) (w : World) :
  tls_get t w <> nullptr -> current t w = Ok (tls_get t w) w.
Proof.
  intros Hne. rewrite (current_after_init t w (initialized_of_slot t w Hne)).
  destruct (Z.eqb_spec (tls_get t w) nullptr) as [E | _]; [contradiction | reflexivity].
Qed.

(** Null VM handle behind an initialized store: the slot is returned and
    nothing else happens. *)
Lemma current_no_vm (t : thread) (w : World) :
  g_env_initialized w = true -> g_vm w = nullptr ->
  current t w = Ok (tls_get t w) w.
Proof.
  intros Hi Hvm. rewrite (current_after_init t w Hi), Hvm.
  now rewrite Z.eqb_refl, andb_false_r.
Qed.

(** Cache miss on a thread the VM does not know: one query, one log line,
    a null result; nothing is cached. *)
Lemma current_detached (t : thread) (w : World) :
  tls_get t w = nullptr -> g_vm w <> nullptr ->
  Jvm.attached (jvm w) !! t = None ->
  current t w
  = Ok nullptr (emit (EvLogError not_attached_msg) (emit (EvGetEnv t) w)).
Proof.
  intros Hslot Hvm Hatt.
  rewrite (current_after_init t w (initialized_of_g_vm w Hvm)).
  unfold Jvm.GetEnv. rewrite Hslot, Hatt, Z.eqb_refl.
  destruct (Z.eqb_spec (g_vm w) nullptr) as [E | _]; [contradiction | reflexivity].
Qed.

(** Cache miss on an attached thread: one query, the handle is cached. *)
Lemma current_attached (t : thread) (w : World) (e : positive) :
  tls_get t w = nullptr -> g_vm w <> nullptr ->
  Jvm.attached (jvm w) !! t = Some e ->
  current t w = Ok (Z.pos e) (tls_reset t (Z.pos e) (emit (EvGetEnv t) w)).
Proof.
  intros Hslot Hvm Hatt.
  rewrite (current_after_init t w (initialized_of_g_vm w Hvm)).
  unfold Jvm.GetEnv. rewrite Hslot, Hatt, Z.eqb_refl.
  destruct (Z.eqb_spec (g_vm w) nullptr) as [E | _]; [contradiction | reflexivity].
Qed.

(** The four ways through [current] once the store is there. *)
Lemma current_cases (t : thread) (w : World) :
  g_env_initialized w = true ->
  (tls_get t w <> nullptr /\ current t w = Ok (tls_get t w) w)
  \/ (tls_get t w = nullptr /\ g_vm w = nullptr /\ current t w = Ok nullptr w)
  \/ (tls_get t w = nullptr /\ g_vm w <> nullptr
      /\ Jvm.attached (jvm w) !! t = None
      /\ current t w
         = Ok nullptr (emit (EvLogError not_attached_msg) (emit (EvGetEnv t) w)))
  \/ (exists e, tls_get t w = nullptr /\ g_vm w <> nullptr
      /\ Jvm.attached (jvm w) !! t = Some e
      /\ current t w = Ok (Z.pos e) (tls_reset t (Z.pos e) (emit (EvGetEnv t) w))).
Proof.
  intros Hi.
  destruct (Z.eq_dec (tls_get t w) nullptr) as [Hslot | Hslot].
  - destruct (Z.eq_dec (g_vm w) nullptr) as [Hvm | Hvm].
    + right; left. repeat split; try assumption.
      rewrite (current_no_vm t w Hi Hvm). now rewrite Hslot.
    + destruct (Jvm.attached (jvm w) !! t) as [e |] eqn:Hatt.
      * right; right; right. exists e. repeat split; try assumption.
        now apply current_attached.
      * right; right; left. repeat split; try assumption.
        now apply current_detached.
  - left. split; [assumption | now apply current_hit].
Qed.

(** [current] returns exactly when the store is there. *)
Lemma current_returns (t : thread) (w : World) :
  g_env_initialized w = true -> exists h w', current t w = Ok h w'.
Proof.
  intros Hi.
  destruct (current_cases t w Hi)
    as [[_ E] | [(_ & _ & E) | [(_ & _ & _ & E) | (e & _ & _ & _ & E)]]];
    rewrite E; eauto.
Qed.

Lemma current_ok_initialized (t : thread) (w : World) (h : Z) (w' : World) :
  current t w = Ok h w' -> g_env_initialized w = true.
Proof.
  intros E. destruct (g_env_initialized w) eqn:Hi; [reflexivity |].
  rewrite (current_before_init t w Hi) in E. discriminate.
Qed.

(** What [current] never touches. *)
Lemma current_frame (t : thread) (w : World) (h : Z) (w' : World) :
  current t w = Ok h w' ->
  g_vm w' = g_vm w /\ jvm w' = jvm w /\ method_static w' = method_static w
  /\ heap w' = heap w /\ counter w' = counter w /\ abi w' = abi w
  /\ g_env_initialized w' = true.
Proof.
  intros Hc. pose proof (current_ok_initialized t w h w' Hc) as Hi.
  destruct (current_cases t w Hi)
    as [[_ E] | [(_ & _ & E) | [(_ & _ & _ & E) | (e & _ & _ & _ & E)]]];
    rewrite E in Hc; inversion Hc; subst; cbn; repeat split; auto.
Qed.

(** A non-null result is in the caller's slot afterwards. *)
Lemma current_caches (t : thread) (w : World) (h : Z) (w' : World) :
  current t w = Ok h w' -> h <> nullptr -> tls_get t w' = h.
Proof.
  intros Hc Hh. pose proof (current_ok_initialized t w h w' Hc) as Hi.
  destruct (current_cases t w Hi)
    as [[_ E] | [(_ & _ & E) | [(_ & _ & _ & E) | (e & _ & _ & _ & E)]]];
    rewrite E in Hc; inversion Hc; subst; try congruence.
  apply tls_get_reset.
Qed.

(** Repeated calls on a thread whose slot is set. *)
Lemma current_n_hit (n : nat) (t : thread) (w : World) :
  tls_get t w <> nullptr -> current_n n t w = Ok (repeat (tls_get t w) n) w.
Proof.
  intros Hne. induction n as [| n IH]; [reflexivity |].
  cbn [current_n repeat]. rewrite (current_hit t w Hne). cbn [bind].
  rewrite IH. reflexivity.
Qed.

End CurrentFacts.

Section CurrentClaims.
Import Environment.

(** C3: on a thread whose thread-local slot holds a non-null handle [h],
    or that has just got the non-null [h] from a call to [current()],
    every further call returns [h] and leaves the process as it is: the VM
    is not queried again, however many calls follow. *)
Theorem current_cache_hit_without_query (t : thread) (w : World) (h : Z) (n : nat) :
  h <> nullptr ->
  (tls_get t w = h \/ exists w0, current t w0 = Ok h w) ->
  current t w = Ok h w
  /\ current_n n t w = Ok (repeat h n) w
  /\ vm_queries (world_of (current_n n t w)) = vm_queries w.
Proof.
  intros Hh Hslot.
  assert (Hget : tls_get t w = h).
  { destruct Hslot as [E | [w0 E]]; [exact E | exact (current_caches t w0 h w E Hh)]. }
  assert (Hne : tls_get t w <> nullptr) by congruence.
  pose proof (current_hit t w Hne) as H1.
  pose proof (current_n_hit n t w Hne) as Hn.
  rewrite Hget in H1, Hn.
  repeat split; [exact H1 | exact Hn | now rewrite Hn].
Qed.

Lemma current_cache_hit_without_query_witness :
  current 1%nat (world_of (current 1%nat Process.ready_attached))
  = Ok 9 (world_of (current 1%nat Process.ready_attached))
  /\ current_n 3 1%nat (world_of (current 1%nat Process.ready_attached))
     = Ok [9; 9; 9] (world_of (current 1%nat Process.ready_attached))
  /\ vm_queries (world_of (current_n 3 1%nat
                   (world_of (current 1%nat Process.ready_attached))))
     = vm_queries (world_of (current 1%nat Process.ready_attached)).
Proof.
  apply (current_cache_hit_without_query 1%nat
           (world_of (current 1%nat Process.ready_attached)) 9 3).
  - discriminate.
  - right. exists Process.ready_attached. vm_compute. reflexivity.
Defined.

(** C10: when the calling thread's slot holds a non-null handle,
    [current()] returns it whatever the process-wide VM handle is, in
    particular when no VM handle was ever registered. *)
Theorem current_hit_ignores_vm_handle (t : thread) (w : World) (h : Z) :
  tls_get t w = h -> h <> nullptr ->
  (forall v, current t (set_g_vm v w) = Ok h (set_g_vm v w))
  /\ (g_vm w = nullptr -> current t w = Ok h w).
Proof.
  intros Hget Hh. split.
  - intros v. rewrite <- Hget at 1.
    rewrite <- (tls_get_set_g_vm t v w) at 1.
    apply current_hit. rewrite tls_get_set_g_vm. congruence.
  - intros _. rewrite <- Hget at 1. apply current_hit. congruence.
Qed.

Lemma current_hit_ignores_vm_handle_witness :
  g_vm Process.cached_only = nullptr
  /\ current 1%nat Process.cached_only = Ok 77 Process.cached_only.
Proof.
  split; [reflexivity |].
  apply (current_hit_ignores_vm_handle 1%nat Process.cached_only 77);
    [reflexivity | discriminate | reflexivity].
Defined.

(** C9 (the code at the failing input): in a process where the unit was
    never initialized, so that no VM handle is registered and no thread has
    a cached handle, [current()] does not return null: it does not return.
    The access to [g_env] in its first statement ends the call before the
    guard on [g_vm] is reached; nothing is queried or logged. *)
Theorem current_before_registration_does_not_return (t : thread) (w : World) :
  g_env_initialized w = false ->
  g_vm w = nullptr /\ tls_get t w = nullptr
  /\ current t w = Fatal UseBeforeInit w
  /\ returned (current t w) = None.
Proof.
  intros Hi. rewrite (current_before_init t w Hi).
  unfold g_vm, tls_get, g_env, g_env_initialized in *.
  destruct (globals w); [| discriminate].
  rewrite lookup_empty. repeat split; reflexivity.
Qed.

Lemma current_before_registration_does_not_return_witness :
  g_vm Process.loaded = nullptr /\ tls_get 1%nat Process.loaded = nullptr
  /\ current 1%nat Process.loaded = Fatal UseBeforeInit Process.loaded
  /\ returned (current 1%nat Process.loaded) = None.
Proof.
  apply (current_before_registration_does_not_return 1%nat Process.loaded).
  reflexivity.
Defined.

(** C2 (as the code has it): in a process with a VM handle registered, a
    call to [current()] on a thread with no cached handle that the VM does
    not know fails with the not-attached condition: after one query it logs
    the diagnostic and returns to its caller a result that no resolved
    handle equals; it attaches no thread and caches nothing.  A resolution
    that succeeds returns a handle of the VM. *)
Theorem current_not_attached (t : thread) (w : World) :
  tls_get t w = nullptr -> g_vm w <> nullptr ->
  Jvm.attached (jvm w) !! t = None ->
  exists r w',
    current t w = Ok r w'
    /\ (forall e : positive, r <> Z.pos e)
    /\ trace w' = trace w ++ [EvGetEnv t; EvLogError not_attached_msg]
    /\ logs_diagnostic w w'
    /\ jvm w' = jvm w /\ g_env w' = g_env w /\ g_vm w' = g_vm w
    /\ (forall w2 h w2', tls_get t w2 = nullptr ->
          is_Some (Jvm.attached (jvm w2) !! t) -> g_vm w2 <> nullptr ->
          current t w2 = Ok h w2' -> exists e, h = Z.pos e).
Proof.
  intros Hs Hvm Ha.
  exists nullptr, (emit (EvLogError not_attached_msg) (emit (EvGetEnv t) w)).
  split; [now apply current_detached |].
  split; [intros e; discriminate |].
  split; [cbn; now rewrite <- app_assoc |].
  split.
  { exists not_attached_msg. unfold logged. cbn.
    rewrite <- app_assoc, List.filter_app. reflexivity. }
  split; [reflexivity |]. split; [reflexivity |]. split; [reflexivity |].
  intros w2 h w2' Hs2 [e He] Hvm2 Hc.
  rewrite (current_attached t w2 e Hs2 Hvm2 He) in Hc.
  inversion Hc. eauto.
Qed.

Lemma current_not_attached_witness :
  exists r w',
    current 1%nat Process.ready = Ok r w'
    /\ (forall e : positive, r <> Z.pos e)
    /\ trace w' = trace Process.ready ++ [EvGetEnv 1%nat; EvLogError not_attached_msg]
    /\ logs_diagnostic Process.ready w'
    /\ jvm w' = jvm Process.ready /\ g_env w' = g_env Process.ready
    /\ g_vm w' = g_vm Process.ready
    /\ (forall w2 h w2', tls_get 1%nat w2 = nullptr ->
          is_Some (Jvm.attached (jvm w2) !! 1%nat) -> g_vm w2 <> nullptr ->
          current 1%nat w2 = Ok h w2' -> exists e, h = Z.pos e).
Proof.
  apply (current_not_attached 1%nat Process.ready).
  - reflexivity.
  - discriminate.
  - reflexivity.
Defined.

(** C2 as stated fails where no VM handle was ever registered: on a thread
    without a cached handle [current()] logs nothing and returns nothing to
    its caller; the call ends at the access to [g_env]. *)
Lemma current_unregistered_does_not_return :
  tls_get 1%nat Process.cold = nullptr
  /\ g_vm Process.cold = nullptr
  /\ current 1%nat Process.cold = Fatal UseBeforeInit Process.cold
  /\ returned (current 1%nat Process.cold) = None
  /\ logged (world_of (current 1%nat Process.cold)) = logged Process.cold.
Proof. repeat split; reflexivity. Qed.

End CurrentClaims.

(* ===================================================================== *)
(** * Traces *)
(* ===================================================================== *)

Lemma invocations_app (tr1 tr2 : list Event) :
  invocations (tr1 ++ tr2) = invocations tr1 ++ invocations tr2.
Proof.
  induction tr1 as [| e tr1 IH]; [reflexivity |].
  destruct e; cbn; rewrite IH; reflexivity.
Qed.

Lemma handles_seen_app (tr1 tr2 : list Event) :
  handles_seen (tr1 ++ tr2) = handles_seen tr1 ++ handles_seen tr2.
Proof.
  induction tr1 as [| e tr1 IH]; [reflexivity |].
  destruct e; cbn; rewrite IH; reflexivity.
Qed.

Lemma invocations_from_closure (evs : list Event) :
  forallb from_closure evs = true -> invocations evs = [].
Proof.
  induction evs as [| e evs IH]; [reflexivity |].
  cbn. destruct e; cbn; try discriminate; exact IH.
Qed.

Lemma lookups_from_closure (evs : list Event) :
  forallb from_closure evs = true -> List.filter is_lookup evs = [].
Proof.
  induction evs as [| e evs IH]; [reflexivity |].
  cbn. destruct e; cbn; try discriminate; exact IH.
Qed.

(** The events of one call to [current()]. *)
Lemma current_trace (t : thread) (w : World) (h : Z) (w' : World) :
  Environment.current t w = Ok h w' ->
  exists evs, trace w' = trace w ++ evs
              /\ forallb from_closure evs = true /\ handles_seen evs = [].
Proof.
  intros Hc. pose proof (current_ok_initialized t w h w' Hc) as Hi.
  destruct (current_cases t w Hi)
    as [[_ E] | [(_ & _ & E) | [(_ & _ & _ & E) | (e & _ & _ & _ & E)]]];
    rewrite E in Hc; inversion Hc; subst; cbn.
  - exists []. now rewrite app_nil_r.
  - exists []. now rewrite app_nil_r.
  - exists [EvGetEnv t; EvLogError Environment.not_attached_msg].
    now rewrite <- app_assoc.
  - exists [EvGetEnv t]. auto.
Qed.

Lemma resolvable_initialized (t : thread) (w : World) :
  resolvable t w -> g_env_initialized w = true.
Proof.
  intros [Hs | [Hv _]];
    [exact (initialized_of_slot t w Hs) | exact (initialized_of_g_vm w Hv)].
Qed.

(** When a handle can be resolved, [current()] returns a non-null one, and
    one can be resolved afterwards too. *)
Lemma current_resolvable (t : thread) (w : World) (h : Z) (w' : World) :
  resolvable t w -> Environment.current t w = Ok h w' ->
  h <> nullptr /\ resolvable t w'.
Proof.
  intros Hr Hc.
  assert (Hh : h <> nullptr).
  { destruct (current_cases t w (resolvable_initialized t w Hr))
      as [[Hs E] | [(Hs & Hvm & E) | [(Hs & Hvm & Ha & E) | (e & Hs & Hvm & Ha & E)]]];
      rewrite E in Hc; inversion Hc; subst.
    - exact Hs.
    - destruct Hr as [Hr | [Hr _]]; contradiction.
    - destruct Hr as [Hr | [_ [x Hx]]]; [contradiction | congruence].
    - discriminate. }
  split; [exact Hh |].
  left. rewrite (current_caches t w h w' Hc Hh). exact Hh.
Qed.

(* ===================================================================== *)
(** * Closure bodies *)
(* ===================================================================== *)

Section CallFacts.
Import JThreadScopeSupport.

(** However a closure body ends, it has left the VM handle, the managed
    runtime, the method cache, the heap and the platform alone, and caused
    only events of its own kind. *)
Lemma call_any (t : thread) (f : StdFunction) :
  forall w, exists evs,
    g_vm (world_of (call t f w)) = g_vm w
    /\ jvm (world_of (call t f w)) = jvm w
    /\ method_static (world_of (call t f w)) = method_static w
    /\ heap (world_of (call t f w)) = heap w
    /\ abi (world_of (call t f w)) = abi w
    /\ trace (world_of (call t f w)) = trace w ++ evs
    /\ forallb from_closure evs = true.
Proof.
  induction f as [| k IH | k IH]; intros w.
  - exists []. cbn. rewrite app_nil_r. repeat split; reflexivity.
  - destruct (IH (set_counter (counter w + 1) w))
      as (evs & H1 & H2 & H3 & H4 & H5 & H6 & H7).
    exists evs. cbn [call]. repeat split; assumption.
  - cbn [call].
    destruct (g_env_initialized w) eqn:Hi.
    + destruct (current_returns t w Hi) as (h & w1 & Hcur).
      destruct (current_frame t w h w1 Hcur) as (F1 & F2 & F3 & F4 & _ & F6 & _).
      destruct (current_trace t w h w1 Hcur) as (evs1 & T1 & C1 & _).
      destruct (IH h (emit (EvCurrent t h) w1))
        as (evs & H1 & H2 & H3 & H4 & H5 & H6 & H7).
      exists (evs1 ++ [EvCurrent t h] ++ evs).
      rewrite Hcur. cbn [bind].
      split; [rewrite H1; exact F1 |]. split; [rewrite H2; exact F2 |].
      split; [rewrite H3; exact F3 |]. split; [rewrite H4; exact F4 |].
      split; [rewrite H5; exact F6 |].
      split.
      * rewrite H6. cbn [trace emit]. rewrite T1. now rewrite <- !app_assoc.
      * rewrite !forallb_app, C1, H7. reflexivity.
    + rewrite (current_before_init t w Hi). cbn [bind world_of].
      exists []. rewrite app_nil_r. repeat split; reflexivity.
Qed.

(** Once the thread-local store is there a closure body runs to
    completion. *)
Lemma call_returns (t : thread) (f : StdFunction) :
  forall w, g_env_initialized w = true -> exists w', call t f w = Ok tt w'.
Proof.
  induction f as [| k IH | k IH]; intros w Hi.
  - exists w. reflexivity.
  - cbn [call]. apply IH. exact Hi.
  - cbn [call].
    destruct (current_returns t w Hi) as (h & w1 & Hcur).
    destruct (current_frame t w h w1 Hcur) as (_ & _ & _ & _ & _ & _ & Hi1).
    rewrite Hcur. cbn [bind]. apply IH. exact Hi1.
Qed.

Lemma call_spec (t : thread) (f : StdFunction) :
  forall w, g_env_initialized w = true ->
    exists w' evs,
      call t f w = Ok tt w'
      /\ g_vm w' = g_vm w /\ jvm w' = jvm w
      /\ method_static w' = method_static w /\ heap w' = heap w /\ abi w' = abi w
      /\ trace w' = trace w ++ evs /\ forallb from_closure evs = true.
Proof.
  intros w Hi.
  destruct (call_returns t f w Hi) as (w' & Hc).
  destruct (call_any t f w) as (evs & H).
  rewrite Hc in H. cbn [world_of] in H.
  exists w', evs. split; [exact Hc | exact H].
Qed.

(** While a handle can be resolved, every handle the body gets from
    [current()] is non-null. *)
Lemma call_handles (t : thread) (f : StdFunction) :
  forall w w', resolvable t w -> call t f w = Ok tt w' ->
    exists hs, handles_seen (trace w') = handles_seen (trace w) ++ hs
               /\ Forall (fun h => h <> nullptr) hs.
Proof.
  induction f as [| k IH | k IH]; intros w w' Hr Hc.
  - inversion Hc; subst. exists []. now rewrite app_nil_r.
  - cbn [call] in Hc. apply (IH (set_counter (counter w + 1) w) w'); assumption.
  - cbn [call] in Hc.
    destruct (current_returns t w (resolvable_initialized t w Hr)) as (h & w1 & Hcur).
    rewrite Hcur in Hc. cbn [bind] in Hc.
    destruct (current_resolvable t w h w1 Hr Hcur) as [Hh Hr1].
    destruct (current_trace t w h w1 Hcur) as (evs1 & T1 & _ & S1).
    destruct (IH h (emit (EvCurrent t h) w1) w') as (hs & Hs & Hall);
      [exact Hr1 | exact Hc |].
    exists (h :: hs). split; [| constructor; assumption].
    rewrite Hs. cbn [trace emit]. rewrite T1, !handles_seen_app, S1.
    cbn. rewrite app_nil_r, <- app_assoc. reflexivity.
Qed.

End CallFacts.

(* ===================================================================== *)
(** * [JThreadScopeSupport] *)
(* ===================================================================== *)

Section BridgeFacts.
Import JThreadScopeSupport.

Lemma enter_attached (t : thread) (vm : Jvm.JavaVM) :
  is_Some (Jvm.attached (Jvm.enter t vm) !! t).
Proof.
  unfold Jvm.enter. destruct (Jvm.attached vm !! t) as [e |] eqn:E.
  - rewrite E. eauto.
  - cbn. rewrite lookup_insert_eq. eauto.
Qed.

Lemma enter_bound (t : thread) (vm : Jvm.JavaVM) :
  Jvm.bound (Jvm.enter t vm) = Jvm.bound vm.
Proof. unfold Jvm.enter. destruct (Jvm.attached vm !! t); reflexivity. Qed.

(** A thread that was attached before the managed call is left as it was;
    one that was not is detached again. *)
Lemma leave_enter (t : thread) (vm : Jvm.JavaVM) :
  Jvm.attached (Jvm.leave t (Jvm.attached vm !! t) (Jvm.enter t vm)) !! t
  = Jvm.attached vm !! t.
Proof.
  unfold Jvm.leave, Jvm.enter.
  destruct (Jvm.attached vm !! t) as [e |] eqn:E; [exact E |].
  cbn. apply lookup_delete_eq.
Qed.

Lemma declares_spec (ms : list Jvm.JMethod) (m : Jvm.JMethod) :
  Jvm.declares ms m = true <-> m ∈ ms.
Proof.
  unfold Jvm.declares. rewrite existsb_exists, list_elem_of_In.
  split.
  - intros ([n s] & Hin & Hsame). unfold Jvm.same_method in Hsame. cbn in Hsame.
    apply andb_true_iff in Hsame as [H1 H2].
    apply String.eqb_eq in H1, H2. destruct m as [n' s']; cbn in *; subst. exact Hin.
  - intros Hin. exists m. split; [exact Hin |].
    unfold Jvm.same_method. now rewrite !String.eqb_refl.
Qed.

(** The first statement of [runStdFunction] in a wired process: the
    method reference is there afterwards, by one lookup at most. *)
Lemma method_ready (t : thread) (w : World) :
  wired w ->
  exists m w1 evs,
    match method_static w with
    | Some m => Ok m w
    | None => resolve_method t w
    end = Ok m w1
    /\ method_static w1 = Some m
    /\ abi w1 = abi w /\ heap w1 = heap w /\ jvm w1 = jvm w
    /\ globals w1 = globals w /\ counter w1 = counter w
    /\ trace w1 = trace w ++ evs
    /\ invocations evs = [] /\ handles_seen evs = [].
Proof.
  intros [Hm _].
  destruct (method_static w) as [m |] eqn:Hstatic.
  - exists m, w, []. rewrite app_nil_r. repeat split; auto.
  - destruct Hm as [[m Hm] | [m Hm]]; [discriminate |].
    exists m, (set_method_static (Some m) (emit (EvLookup t) w)), [EvLookup t].
    unfold resolve_method. rewrite Hm. repeat split; reflexivity.
Qed.

(** The managed round trip for the token of a live closure. *)
Lemma invoke_dispatch_live (t : thread) (func : Z) (c : StdFunction) (w : World) :
  Token.valid_ptr (abi w) func ->
  heap w !! func = Some c ->
  Jvm.bound (jvm w) !! (kJavaDescriptor, reentry_stub) = Some Jvm.RunStdFunctionImpl ->
  invoke_dispatch t (Token.ptr_to_jlong (abi w) func) w
  = bind (call t c (emit (EvInvoke t func) (set_jvm (Jvm.enter t (jvm w)) w)))
         (fun _ w2 =>
            Ok tt (set_jvm (Jvm.leave t (Jvm.attached (jvm w) !! t) (jvm w2)) w2)).
Proof.
  intros Hp Hheap Hb. unfold invoke_dispatch. cbn [jvm set_jvm].
  rewrite enter_bound, Hb. cbn [native_entry].
  unfold runStdFunctionImpl. cbn [abi heap set_jvm].
  rewrite (jlong_to_ptr_to_jlong (abi w) func Hp), Hheap. reflexivity.
Qed.

End BridgeFacts.

Section BridgeClaims.
Import JThreadScopeSupport.

(** C4: the token [runStdFunction] hands to the managed method is the
    address of the closure cast to a [jlong]; it fits a [jlong], casting it
    back gives the address again, and [runStdFunctionImpl] applied to it
    calls exactly the closure object that lives at that address. *)
Theorem token_round_trip (t : thread) (func : Z) (c : StdFunction) (w : World) :
  Token.valid_ptr (abi w) func ->
  heap w !! func = Some c ->
  Token.is_jlong (Token.ptr_to_jlong (abi w) func)
  /\ Token.jlong_to_ptr (abi w) (Token.ptr_to_jlong (abi w) func) = func
  /\ runStdFunctionImpl t (Token.ptr_to_jlong (abi w) func) w
     = call t c (emit (EvInvoke t func) w)
  /\ (forall m, method_static w = Some m ->
        runStdFunction t func w
        = invoke_dispatch t (Token.ptr_to_jlong (abi w) func) w).
Proof.
  intros Hp Hheap.
  split; [apply ptr_to_jlong_range |].
  split; [now apply jlong_to_ptr_to_jlong |].
  split.
  - unfold runStdFunctionImpl.
    rewrite (jlong_to_ptr_to_jlong (abi w) func Hp), Hheap. reflexivity.
  - intros m Hm. unfold runStdFunction. rewrite Hm. reflexivity.
Qed.

Lemma token_round_trip_witness :
  Token.is_jlong (Token.ptr_to_jlong (abi Process.cold) Sample.func_addr)
  /\ Token.jlong_to_ptr (abi Process.cold)
       (Token.ptr_to_jlong (abi Process.cold) Sample.func_addr) = Sample.func_addr
  /\ runStdFunctionImpl 1%nat (Token.ptr_to_jlong (abi Process.cold) Sample.func_addr)
       Process.cold
     = call 1%nat Sample.probe (emit (EvInvoke 1%nat Sample.func_addr) Process.cold)
  /\ (forall m, method_static Process.cold = Some m ->
        runStdFunction 1%nat Sample.func_addr Process.cold
        = invoke_dispatch 1%nat
            (Token.ptr_to_jlong (abi Process.cold) Sample.func_addr) Process.cold).
Proof.
  apply (token_round_trip 1%nat Sample.func_addr Sample.probe Process.cold).
  - apply valid_ptrb_spec. reflexivity.
  - reflexivity.
Defined.

(** C1: in a wired process in which a VM handle is registered, or the
    calling thread already has a cached handle, for a closure [c] alive at
    [func], [runStdFunction] on thread [t] returns after it has run the body
    of [c] once, on [t], started in a state where [t] is attached to the VM
    and stays so, and every handle [c] gets from [current()] is non-null. *)
Theorem runStdFunction_runs_closure_once
    (t : thread) (func : Z) (c : StdFunction) (w : World) :
  Token.valid_ptr (abi w) func ->
  heap w !! func = Some c ->
  wired w ->
  (g_vm w <> nullptr \/ Environment.tls_get t w <> nullptr) ->
  exists w_in w_c hs,
    is_Some (Jvm.attached (jvm w_in) !! t)
    /\ g_vm w_in = g_vm w /\ g_env w_in = g_env w /\ counter w_in = counter w
    /\ call t c w_in = Ok tt w_c
    /\ jvm w_c = jvm w_in
    /\ runStdFunction t func w
       = Ok tt (set_jvm (Jvm.leave t (Jvm.attached (jvm w) !! t) (jvm w_c)) w_c)
    /\ invocations (trace w_c) = invocations (trace w) ++ [(t, func)]
    /\ handles_seen (trace w_c) = handles_seen (trace w) ++ hs
    /\ Forall (fun h => h <> nullptr) hs.
Proof.
  intros Hp Hheap Hwired Hres.
  destruct (method_ready t w Hwired)
    as (m & w1 & evs & Hm & _ & Habi & Hh & Hjvm & Hglob & Hcnt & Htr & Hinv & Hseen).
  destruct Hwired as [_ Hbound].
  set (w_in := emit (EvInvoke t func) (set_jvm (Jvm.enter t (jvm w1)) w1)).
  assert (Hvm : g_vm w_in = g_vm w) by (unfold g_vm; cbn; now rewrite Hglob).
  assert (Henv : g_env w_in = g_env w) by (unfold g_env; cbn; now rewrite Hglob).
  assert (Hi : g_env_initialized w_in = true).
  { change (g_env_initialized w_in) with (g_env_initialized w1).
    unfold g_env_initialized. rewrite Hglob.
    destruct Hres as [Hv | Hs];
      [exact (initialized_of_g_vm w Hv) | exact (initialized_of_slot t w Hs)]. }
  destruct (call_spec t c w_in Hi)
    as (w_c & cevs & Hcall & C1 & C2 & _ & _ & _ & C6 & C7).
  assert (Hattached : is_Some (Jvm.attached (jvm w_in) !! t))
    by (cbn; apply enter_attached).
  assert (Hr : resolvable t w_in).
  { destruct Hres as [Hv | Hs].
    - right. split; [congruence | exact Hattached].
    - left. unfold Environment.tls_get in *. now rewrite Henv. }
  destruct (call_handles t c w_in w_c Hr Hcall) as (hs & Hhs & Hall).
  exists w_in, w_c, hs.
  split; [exact Hattached |].
  split; [exact Hvm |]. split; [exact Henv |]. split; [cbn; exact Hcnt |].
  split; [exact Hcall |]. split; [exact C2 |].
  split.
  - unfold runStdFunction. rewrite Hm. cbn [bind].
    rewrite (invoke_dispatch_live t func c w1);
      [| now rewrite Habi | now rewrite Hh | now rewrite Hjvm].
    fold w_in. rewrite Hcall. cbn [bind]. now rewrite Hjvm.
  - split; [| split; [| exact Hall]].
    + rewrite C6, invocations_app, (invocations_from_closure cevs C7), app_nil_r.
      cbn [w_in trace emit set_jvm].
      rewrite Htr, !invocations_app, Hinv, app_nil_r. reflexivity.
    + rewrite Hhs. cbn [w_in trace emit set_jvm].
      rewrite Htr, !handles_seen_app, Hseen. cbn. now rewrite !app_nil_r.
Qed.

Lemma wired_ready : wired Process.ready.
Proof. split; [right; vm_compute; eauto | vm_compute; reflexivity]. Defined.

Lemma runStdFunction_runs_closure_once_witness :
  exists w_in w_c hs,
    is_Some (Jvm.attached (jvm w_in) !! 1%nat)
    /\ g_vm w_in = g_vm Process.ready /\ g_env w_in = g_env Process.ready
    /\ counter w_in = counter Process.ready
    /\ call 1%nat Sample.probe w_in = Ok tt w_c
    /\ jvm w_c = jvm w_in
    /\ runStdFunction 1%nat Sample.func_addr Process.ready
       = Ok tt (set_jvm (Jvm.leave 1%nat (Jvm.attached (jvm Process.ready) !! 1%nat)
                           (jvm w_c)) w_c)
    /\ invocations (trace w_c)
       = invocations (trace Process.ready) ++ [(1%nat, Sample.func_addr)]
    /\ handles_seen (trace w_c) = handles_seen (trace Process.ready) ++ hs
    /\ Forall (fun h => h <> nullptr) hs.
Proof.
  apply (runStdFunction_runs_closure_once 1%nat Sample.func_addr Sample.probe Process.ready).
  - apply valid_ptrb_spec. reflexivity.
  - reflexivity.
  - exact wired_ready.
  - left. discriminate.
Defined.

(** Before the unit is initialized a closure that calls [current()] does
    not come back: the call ends inside the closure. *)
Example closure_before_registration :
  runStdFunction 1%nat Sample.func_addr Process.loaded
  = Fatal UseBeforeInit (world_of (runStdFunction 1%nat Sample.func_addr Process.loaded))
  /\ invocations (trace (world_of (runStdFunction 1%nat Sample.func_addr Process.loaded)))
     = [(1%nat, Sample.func_addr)]
  /\ handles_seen (trace (world_of (runStdFunction 1%nat Sample.func_addr Process.loaded)))
     = [].
Proof. repeat split; vm_compute; reflexivity. Qed.

(** The closure of P3 in a ready process: one increment, one handle. *)
Example probe_counts_once :
  counter (world_of (runStdFunction 1%nat Sample.func_addr Process.ready))
  = counter Process.ready + 1
  /\ handles_seen (trace (world_of (runStdFunction 1%nat Sample.func_addr Process.ready)))
     = [2].
Proof. split; vm_compute; reflexivity. Qed.

(** C7: when the dispatch method is not cached and its lookup fails (no
    such class, or no such static method), [runStdFunction] does not
    return: it ends in a [WiringFailure] right after the lookup, the
    closure is not called and nothing is cached. *)
Theorem unresolved_dispatch_is_fatal (t : thread) (func : Z) (w : World) :
  method_static w = None ->
  Jvm.find_static_method (jvm w) kJavaDescriptor dispatch_method = None ->
  runStdFunction t func w = Fatal WiringFailure (emit (EvLookup t) w)
  /\ invocations (trace (world_of (runStdFunction t func w))) = invocations (trace w)
  /\ method_static (world_of (runStdFunction t func w)) = None.
Proof.
  intros Hstatic Hfind.
  assert (E : runStdFunction t func w = Fatal WiringFailure (emit (EvLookup t) w)).
  { unfold runStdFunction, resolve_method. rewrite Hstatic, Hfind. reflexivity. }
  rewrite E. cbn. rewrite invocations_app, app_nil_r. auto.
Qed.

Lemma unresolved_dispatch_is_fatal_witness :
  runStdFunction 1%nat Sample.func_addr
    (Sample.boot Sample.lp64 (Sample.vm_with Sample.stripped_class ∅) ∅)
  = Fatal WiringFailure
      (emit (EvLookup 1%nat)
         (Sample.boot Sample.lp64 (Sample.vm_with Sample.stripped_class ∅) ∅))
  /\ invocations (trace (world_of (runStdFunction 1%nat Sample.func_addr
       (Sample.boot Sample.lp64 (Sample.vm_with Sample.stripped_class ∅) ∅))))
     = invocations (trace
         (Sample.boot Sample.lp64 (Sample.vm_with Sample.stripped_class ∅) ∅))
  /\ method_static (world_of (runStdFunction 1%nat Sample.func_addr
       (Sample.boot Sample.lp64 (Sample.vm_with Sample.stripped_class ∅) ∅)))
     = None.
Proof.
  apply (unresolved_dispatch_is_fatal 1%nat Sample.func_addr
           (Sample.boot Sample.lp64 (Sample.vm_with Sample.stripped_class ∅) ∅)).
  - reflexivity.
  - vm_compute. reflexivity.
Defined.

(** C8: [OnLoad] binds [runStdFunctionImpl] to the stub named
    [runStdFunctionImpl] with descriptor [(J)V] when the managed class
    declares that stub; when it declares no stub of that name and
    descriptor the load is rejected with a [WiringFailure] and nothing is
    bound. *)
Theorem OnLoad_binds_or_rejects (w : World) :
  reentry_stub = ("runStdFunctionImpl", "(J)V")
  /\ (reentry_stub ∈ declared_stubs w ->
      exists w', OnLoad w = Ok tt w'
                 /\ Jvm.bound (jvm w') !! (kJavaDescriptor, reentry_stub)
                    = Some Jvm.RunStdFunctionImpl)
  /\ (reentry_stub ∉ declared_stubs w -> OnLoad w = Fatal WiringFailure w).
Proof.
  split; [reflexivity |].
  unfold declared_stubs, OnLoad, Jvm.RegisterNatives.
  destruct (Jvm.classes (jvm w) !! kJavaDescriptor) as [c |].
  - cbn [forallb fst snd]. rewrite andb_true_r.
    destruct (Jvm.declares (Jvm.native_stubs c) reentry_stub) eqn:Hd.
    + split.
      * intros _. eexists. split; [reflexivity |].
        cbn. apply lookup_insert_eq.
      * intros Hn. apply declares_spec in Hd. contradiction.
    + split.
      * intros Hin. apply declares_spec in Hin. congruence.
      * reflexivity.
  - split.
    + intros Hin. apply elem_of_nil in Hin. contradiction.
    + reflexivity.
Qed.

(** A stub with the wrong descriptor, and one with the wrong name. *)
Example OnLoad_rejects_mismatch :
  returned (OnLoad (Sample.boot Sample.lp64 (Sample.vm_with Sample.mistyped_class ∅) ∅))
  = None
  /\ returned (OnLoad (Sample.boot Sample.lp64 (Sample.vm_with Sample.misnamed_class ∅) ∅))
     = None
  /\ returned (OnLoad Process.cold) = Some tt.
Proof. repeat split; vm_compute; reflexivity. Qed.

End BridgeClaims.

(* ===================================================================== *)
(** * What the bridge leaves alone *)
(* ===================================================================== *)

Section Frames.
Import JThreadScopeSupport.

Lemma lookups_emit_lookup (t : thread) (w : World) :
  lookups (emit (EvLookup t) w) = S (lookups w).
Proof.
  unfold lookups. cbn. rewrite List.filter_app, length_app. cbn. lia.
Qed.

Lemma lookups_extend (w w' : World) (evs : list Event) :
  trace w' = trace w ++ evs -> List.filter is_lookup evs = [] ->
  lookups w' = lookups w.
Proof.
  intros Htr Hnone. unfold lookups.
  rewrite Htr, List.filter_app, Hnone, app_nil_r. reflexivity.
Qed.

(** The initializer of [method] either caches the method it found or ends
    the call; one lookup either way. *)
Lemma resolve_method_cases (t : thread) (w : World) :
  (exists m, resolve_method t w
             = Ok m (set_method_static (Some m) (emit (EvLookup t) w)))
  \/ resolve_method t w = Fatal WiringFailure (emit (EvLookup t) w).
Proof.
  unfold resolve_method.
  destruct (Jvm.find_static_method (jvm w) kJavaDescriptor dispatch_method) as [m |];
    [left; exists m; reflexivity | right; reflexivity].
Qed.

(** The managed round trip, however it ends, leaves the VM handle and the
    cached method alone and looks nothing up. *)
Lemma invoke_dispatch_frame (t : thread) (token : Z) (w : World) :
  g_vm (world_of (invoke_dispatch t token w)) = g_vm w
  /\ method_static (world_of (invoke_dispatch t token w)) = method_static w
  /\ lookups (world_of (invoke_dispatch t token w)) = lookups w.
Proof.
  unfold invoke_dispatch.
  destruct (Jvm.bound (jvm (set_jvm (Jvm.enter t (jvm w)) w))
              !! (kJavaDescriptor, reentry_stub)) as [[] |];
    [| cbn; auto].
  cbn [native_entry]. unfold runStdFunctionImpl.
  destruct (heap (set_jvm (Jvm.enter t (jvm w)) w)
              !! Token.jlong_to_ptr (abi (set_jvm (Jvm.enter t (jvm w)) w)) token)
    as [f |]; [| cbn; auto].
  match goal with
  | |- context [call t f ?w1] =>
      destruct (call_any t f w1) as (evs & H1 & _ & H3 & _ & _ & H6 & H7);
      destruct (call t f w1) as [[] w' | e w']
  end;
    cbn [bind world_of] in *; cbn in H1, H3, H6;
    (split; [exact H1 |]); (split; [exact H3 |]);
    unfold lookups; cbn [trace set_jvm];
    rewrite H6, <- app_assoc, List.filter_app; cbn [List.filter is_lookup app];
    rewrite (lookups_from_closure evs H7), app_nil_r; reflexivity.
Qed.

Lemma runStdFunction_g_vm (t : thread) (func : Z) (w : World) :
  g_vm (world_of (runStdFunction t func w)) = g_vm w.
Proof.
  unfold runStdFunction.
  destruct (method_static w) as [m |].
  - cbn [bind]. apply invoke_dispatch_frame.
  - destruct (resolve_method_cases t w) as [[m E] | E]; rewrite E; cbn [bind].
    + destruct (invoke_dispatch_frame t
                  (Token.ptr_to_jlong
                     (abi (set_method_static (Some m) (emit (EvLookup t) w))) func)
                  (set_method_static (Some m) (emit (EvLookup t) w))) as [H _].
      exact H.
    + reflexivity.
Qed.

Lemma OnLoad_g_vm (w : World) : g_vm (world_of (OnLoad w)) = g_vm w.
Proof.
  unfold OnLoad.
  destruct (Jvm.RegisterNatives (jvm w) kJavaDescriptor
              [(reentry_stub, Jvm.RunStdFunctionImpl)]); reflexivity.
Qed.

Lemma current_g_vm (t : thread) (w : World) :
  g_vm (world_of (Environment.current t w)) = g_vm w.
Proof.
  destruct (g_env_initialized w) eqn:Hi.
  - destruct (current_returns t w Hi) as (h & w' & E). rewrite E. cbn.
    now destruct (current_frame t w h w' E).
  - now rewrite (current_before_init t w Hi).
Qed.

(** The first registration publishes the handle. *)
Lemma registerVM_first (h : Z) (w : World) :
  g_vm w = nullptr -> Environment.registerVM h w = Ok tt (set_g_vm h w).
Proof. intros E. unfold Environment.registerVM. now rewrite E. Qed.

Lemma registerVM_same (w : World) :
  g_vm w <> nullptr -> Environment.registerVM (g_vm w) w = Ok tt w.
Proof.
  intros Hne. unfold Environment.registerVM.
  destruct (Z.eqb_spec (g_vm w) nullptr); [contradiction |].
  now rewrite Z.eqb_refl.
Qed.

Lemma registerVM_other (h : Z) (w : World) :
  g_vm w <> nullptr -> h <> g_vm w ->
  Environment.registerVM h w = Fatal DoubleRegistration w.
Proof.
  intros Hne Hh. unfold Environment.registerVM.
  destruct (Z.eqb_spec (g_vm w) nullptr); [contradiction |].
  destruct (Z.eqb_spec (g_vm w) h); [congruence | reflexivity].
Qed.

(** No operation changes a VM handle that is set. *)
Lemma perform_g_vm (w : World) (op : Op) :
  g_vm w <> nullptr -> g_vm (perform w op) = g_vm w.
Proof.
  intros Hne. destruct op as [h | t | t func |]; cbn [perform].
  - destruct (Z.eq_dec h (g_vm w)) as [-> | Hh].
    + now rewrite registerVM_same.
    + now rewrite registerVM_other.
  - apply current_g_vm.
  - apply runStdFunction_g_vm.
  - apply OnLoad_g_vm.
Qed.

Lemma perform_all_g_vm (ops : list Op) :
  forall w, g_vm w <> nullptr -> g_vm (perform_all ops w) = g_vm w.
Proof.
  unfold perform_all.
  induction ops as [| op ops IH]; intros w Hne; [reflexivity |].
  cbn [foldl]. rewrite IH; rewrite perform_g_vm; auto.
Qed.

End Frames.

(** C5: once a VM handle is registered, registering the same handle again
    returns and changes nothing, registering a different handle is refused
    as a [DoubleRegistration] and changes nothing, and no sequence of
    operations of the unit changes the registered handle. *)
Theorem vm_handle_is_stable (w : World) :
  g_vm w <> nullptr ->
  Environment.registerVM (g_vm w) w = Ok tt w
  /\ (forall h, h <> g_vm w ->
        Environment.registerVM h w = Fatal DoubleRegistration w)
  /\ (forall ops, g_vm (perform_all ops w) = g_vm w).
Proof.
  intros Hne. split; [now apply registerVM_same |].
  split; [intros h Hh; now apply registerVM_other |].
  intros ops. now apply perform_all_g_vm.
Qed.

Lemma vm_handle_is_stable_witness :
  g_vm Process.ready = Sample.vm_addr
  /\ Environment.registerVM (g_vm Process.ready) Process.ready = Ok tt Process.ready
  /\ (forall h, h <> g_vm Process.ready ->
        Environment.registerVM h Process.ready = Fatal DoubleRegistration Process.ready)
  /\ (forall ops, g_vm (perform_all ops Process.ready) = g_vm Process.ready).
Proof.
  split; [reflexivity |].
  apply (vm_handle_is_stable Process.ready). discriminate.
Defined.

(** Registering twice, with the same handle and with another one. *)
Example register_twice :
  Environment.registerVM Sample.vm_addr Process.ready = Ok tt Process.ready
  /\ Environment.registerVM 8192 Process.ready = Fatal DoubleRegistration Process.ready
  /\ g_vm (perform_all [OpRegisterVM 8192; OpCurrent 1%nat;
                        OpRunStdFunction 1%nat Sample.func_addr; OpOnLoad]
                       Process.ready) = Sample.vm_addr.
Proof. repeat split; vm_compute; reflexivity. Qed.

(* ===================================================================== *)
(** * Concurrent first callers of [runStdFunction] *)
(* ===================================================================== *)

Section InterleavingFacts.
Import JThreadScopeSupport Interleaving.

Lemma start_inv (w0 : World) : guard_inv (lookups w0) (start w0).
Proof.
  constructor; cbn.
  - discriminate.
  - intros t f H. now rewrite lookup_empty in H.
  - intros t f m H. now rewrite lookup_empty in H.
  - intros t m H. now apply elem_of_nil in H.
  - lia.
  - lia.
Qed.

(** A thread entering [runStdFunction]. *)
Lemma enter_inv (l0 : nat) (s : Sys) (t : thread) (func : Z) :
  guard_inv l0 s -> pcs s !! t = None ->
  guard_inv l0 {| world := world s; initializing := initializing s;
                  pcs := <[t := AtInit func]> (pcs s);
                  stores := stores s; failed := failed s |}.
Proof.
  intros [I1 I2 I3 I4 I5 I6] Hpc. constructor; cbn.
  - intros t' Hi. destruct (I1 t' Hi) as [Hm [f Hf]].
    split; [exact Hm |]. exists f.
    rewrite lookup_insert_ne; [exact Hf | congruence].
  - intros t' f. destruct (decide (t = t')) as [<- | Hne].
    + rewrite lookup_insert_eq. discriminate.
    + rewrite lookup_insert_ne by exact Hne. apply I2.
  - intros t' f m. destruct (decide (t = t')) as [<- | Hne].
    + rewrite lookup_insert_eq. discriminate.
    + rewrite lookup_insert_ne by exact Hne. apply I3.
  - exact I4.
  - exact I5.
  - exact I6.
Qed.

(** A thread passing the declaration when [method] is initialized. *)
Lemma read_inv (l0 : nat) (s : Sys) (t : thread) (func : Z) (m : Jvm.JMethod) :
  guard_inv l0 s -> method_static (world s) = Some m ->
  guard_inv l0 {| world := world s; initializing := initializing s;
                  pcs := <[t := HasMethod func m]> (pcs s);
                  stores := stores s; failed := failed s |}.
Proof.
  intros [I1 I2 I3 I4 I5 I6] Hm. constructor; cbn.
  - intros t' Hi. destruct (I1 t' Hi) as [Hn _]. congruence.
  - intros t' f. destruct (decide (t = t')) as [<- | Hne].
    + rewrite lookup_insert_eq. discriminate.
    + rewrite lookup_insert_ne by exact Hne. apply I2.
  - intros t' f m'. destruct (decide (t = t')) as [<- | Hne].
    + rewrite lookup_insert_eq. intros E. inversion E; subst. exact Hm.
    + rewrite lookup_insert_ne by exact Hne. apply I3.
  - exact I4.
  - exact I5.
  - exact I6.
Qed.

(** A thread taking the guard of the uninitialized [method]. *)
Lemma claim_inv (l0 : nat) (s : Sys) (t : thread) (func : Z) :
  guard_inv l0 s -> method_static (world s) = None -> initializing s = None ->
  guard_inv l0 {| world := world s; initializing := Some t;
                  pcs := <[t := Resolving func]> (pcs s);
                  stores := stores s; failed := failed s |}.
Proof.
  intros [I1 I2 I3 I4 I5 I6] Hm Hi. constructor; cbn.
  - intros t' E. inversion E; subst t'. split; [exact Hm |].
    exists func. apply lookup_insert_eq.
  - intros t' f. destruct (decide (t = t')) as [<- | Hne]; [reflexivity |].
    rewrite lookup_insert_ne by exact Hne. intros Hf.
    rewrite (I2 t' f Hf) in Hi. discriminate.
  - intros t' f m. destruct (decide (t = t')) as [<- | Hne].
    + rewrite lookup_insert_eq. discriminate.
    + rewrite lookup_insert_ne by exact Hne. apply I3.
  - exact I4.
  - exact I5.
  - exact I6.
Qed.

(** The holder of the guard finishing the initializer with a method. *)
Lemma store_inv (l0 : nat) (s : Sys) (t : thread) (func : Z) (m : Jvm.JMethod) :
  guard_inv l0 s -> pcs s !! t = Some (Resolving func) ->
  guard_inv l0 {| world := set_method_static (Some m) (emit (EvLookup t) (world s));
                  initializing := None;
                  pcs := <[t := HasMethod func m]> (pcs s);
                  stores := stores s ++ [(t, m)]; failed := failed s |}.
Proof.
  intros [I1 I2 I3 I4 I5 I6] Hpc.
  pose proof (I2 t func Hpc) as Hholder.
  destruct (I1 t Hholder) as [Hnone _].
  assert (Hempty : stores s = []).
  { destruct (stores s) as [| [t' m'] l]; [reflexivity |].
    rewrite (I4 t' m' (list_elem_of_here _ _)) in Hnone. discriminate. }
  constructor; cbn [world initializing pcs stores failed method_static set_method_static].
  - discriminate.
  - intros t' f. destruct (decide (t = t')) as [<- | Hne].
    + rewrite lookup_insert_eq. discriminate.
    + rewrite lookup_insert_ne by exact Hne. intros Hf.
      pose proof (I2 t' f Hf) as E. congruence.
  - intros t' f m'. destruct (decide (t = t')) as [<- | Hne].
    + rewrite lookup_insert_eq. congruence.
    + rewrite lookup_insert_ne by exact Hne. intros Hf.
      rewrite (I3 t' f m' Hf) in Hnone. discriminate.
  - intros t' m'. rewrite Hempty. cbn. intros Hin.
    apply list_elem_of_singleton in Hin. congruence.
  - rewrite Hempty. cbn. lia.
  - change (lookups (set_method_static (Some m) (emit (EvLookup t) (world s))))
      with (lookups (emit (EvLookup t) (world s))).
    rewrite lookups_emit_lookup, I6, length_app. cbn. lia.
Qed.

(** The holder of the guard failing: the guard is released, the variable
    stays uninitialized and the call is over. *)
Lemma retry_inv (l0 : nat) (s : Sys) (t : thread) (func : Z) :
  guard_inv l0 s -> pcs s !! t = Some (Resolving func) ->
  guard_inv l0 {| world := emit (EvLookup t) (world s);
                  initializing := None; pcs := delete t (pcs s);
                  stores := stores s; failed := failed s ++ [t] |}.
Proof.
  intros [I1 I2 I3 I4 I5 I6] Hpc.
  pose proof (I2 t func Hpc) as Hholder.
  constructor; cbn [world initializing pcs stores failed].
  - discriminate.
  - intros t' f Hf. apply lookup_delete_Some in Hf as [Hne Hf].
    pose proof (I2 t' f Hf) as E. congruence.
  - intros t' f m Hf. apply lookup_delete_Some in Hf as [_ Hf].
    exact (I3 t' f m Hf).
  - exact I4.
  - exact I5.
  - rewrite lookups_emit_lookup, I6, length_app. cbn. lia.
Qed.

(** A thread making the managed call and leaving [runStdFunction]. *)
Lemma invoke_inv (l0 : nat) (s : Sys) (t : thread) (func : Z) (m : Jvm.JMethod) :
  guard_inv l0 s -> pcs s !! t = Some (HasMethod func m) ->
  guard_inv l0 {| world := world_of (invoke_dispatch t
                                       (Token.ptr_to_jlong (abi (world s)) func) (world s));
                  initializing := initializing s; pcs := delete t (pcs s);
                  stores := stores s; failed := failed s |}.
Proof.
  intros [I1 I2 I3 I4 I5 I6] Hpc.
  destruct (invoke_dispatch_frame t (Token.ptr_to_jlong (abi (world s)) func) (world s))
    as (_ & Hm & Hl).
  constructor; cbn [world initializing pcs stores failed].
  - intros t' Hi. destruct (I1 t' Hi) as [Hn [f Hf]].
    split; [congruence |]. exists f.
    rewrite lookup_delete_ne; [exact Hf | congruence].
  - intros t' f Hf. apply lookup_delete_Some in Hf as [_ Hf]. exact (I2 t' f Hf).
  - intros t' f m' Hf. apply lookup_delete_Some in Hf as [_ Hf].
    rewrite Hm. exact (I3 t' f m' Hf).
  - intros t' m' Hin. rewrite Hm. exact (I4 t' m' Hin).
  - exact I5.
  - rewrite Hl. exact I6.
Qed.

Lemma advance_inv (l0 : nat) (s : Sys) (t : thread) :
  guard_inv l0 s -> guard_inv l0 (advance t s).
Proof.
  intros Hinv. unfold advance.
  destruct (pcs s !! t) as [[func | func | func m] |] eqn:Hpc; [| | | exact Hinv].
  - destruct (method_static (world s)) as [m |] eqn:Hm.
    + now apply read_inv.
    + destruct (initializing s) eqn:Hi; [exact Hinv | now apply claim_inv].
  - destruct (resolve_method_cases t (world s)) as [[m E] | E]; rewrite E.
    + now apply (store_inv l0 s t func).
    + now apply (retry_inv l0 s t func).
  - now apply (invoke_inv l0 s t func m).
Qed.

Lemma step_inv (l0 : nat) (s : Sys) (a : Action) :
  guard_inv l0 s -> guard_inv l0 (step s a).
Proof.
  intros Hinv. unfold step. destruct a as [t func | t].
  - destruct (pcs s !! t) eqn:Hpc; [exact Hinv | now apply enter_inv].
  - now apply advance_inv.
Qed.

Lemma run_inv (l0 : nat) (sched : list Action) :
  forall s, guard_inv l0 s -> guard_inv l0 (run sched s).
Proof.
  unfold run. induction sched as [| a sched IH]; intros s Hinv; [exact Hinv |].
  cbn [foldl]. apply IH. now apply step_inv.
Qed.

(** Once [method] is initialized a step neither replaces it, nor looks
    anything up, nor initializes again. *)
Lemma step_cached (l0 : nat) (s : Sys) (a : Action) (m : Jvm.JMethod) :
  guard_inv l0 s -> method_static (world s) = Some m ->
  method_static (world (step s a)) = Some m
  /\ lookups (world (step s a)) = lookups (world s)
  /\ stores (step s a) = stores s.
Proof.
  intros Hinv Hm. unfold step. destruct a as [t func | t].
  - destruct (pcs s !! t); auto.
  - unfold advance.
    destruct (pcs s !! t) as [[func | func | func m'] |] eqn:Hpc; [| | | auto].
    + rewrite Hm. auto.
    + pose proof (resolving_holder l0 s Hinv t func Hpc) as Hh.
      destruct (holder_resolving l0 s Hinv t Hh) as [Hn _]. congruence.
    + destruct (invoke_dispatch_frame t (Token.ptr_to_jlong (abi (world s)) func) (world s))
        as (_ & Hf & Hl).
      cbn [world stores]. repeat split; congruence.
Qed.

Lemma run_cached (l0 : nat) (sched : list Action) (m : Jvm.JMethod) :
  forall s, guard_inv l0 s -> method_static (world s) = Some m ->
    method_static (world (run sched s)) = Some m
    /\ lookups (world (run sched s)) = lookups (world s)
    /\ stores (run sched s) = stores s.
Proof.
  unfold run. induction sched as [| a sched IH]; intros s Hinv Hm; [auto |].
  cbn [foldl].
  destruct (step_cached l0 s a m Hinv Hm) as (H1 & H2 & H3).
  destruct (IH (step s a) (step_inv l0 s a Hinv) H1) as (H4 & H5 & H6).
  repeat split; congruence.
Qed.

(** The first caller takes the guard. *)
Lemma first_caller_takes_guard (s : Sys) (t : thread) (f : Z) :
  method_static (world s) = None -> initializing s = None ->
  pcs s !! t = Some (AtInit f) ->
  initializing (step s (Advance t)) = Some t
  /\ pcs (step s (Advance t)) !! t = Some (Resolving f)
  /\ world (step s (Advance t)) = world s.
Proof.
  intros Hm Hi Hpc. unfold step, advance. rewrite Hpc, Hm, Hi.
  cbn [initializing pcs world]. rewrite lookup_insert_eq. auto.
Qed.

(** The holder of the guard whose lookup succeeds stores what it found,
    by one lookup, and releases the guard. *)
Lemma guard_holder_stores (s : Sys) (t : thread) (f : Z) (m : Jvm.JMethod) :
  pcs s !! t = Some (Resolving f) ->
  Jvm.find_static_method (jvm (world s)) kJavaDescriptor dispatch_method = Some m ->
  method_static (world (step s (Advance t))) = Some m
  /\ stores (step s (Advance t)) = stores s ++ [(t, m)]
  /\ lookups (world (step s (Advance t))) = S (lookups (world s))
  /\ pcs (step s (Advance t)) !! t = Some (HasMethod f m)
  /\ initializing (step s (Advance t)) = None.
Proof.
  intros Hpc Hfind. unfold step, advance, resolve_method. rewrite Hpc, Hfind.
  cbn [world stores pcs initializing method_static set_method_static].
  rewrite lookup_insert_eq.
  repeat split; try reflexivity.
  change (lookups (set_method_static (Some m) (emit (EvLookup t) (world s))))
    with (lookups (emit (EvLookup t) (world s))).
  apply lookups_emit_lookup.
Qed.

(** A caller reaching the declaration once [method] is initialized reads
    the cached reference; nothing is looked up. *)
Lemma later_caller_reads_cache (s : Sys) (t : thread) (f : Z) (m : Jvm.JMethod) :
  method_static (world s) = Some m ->
  pcs s !! t = Some (AtInit f) ->
  world (step s (Advance t)) = world s
  /\ pcs (step s (Advance t)) !! t = Some (HasMethod f m).
Proof.
  intros Hm Hpc. unfold step, advance. rewrite Hpc, Hm.
  cbn [world pcs]. split; [reflexivity | apply lookup_insert_eq].
Qed.

(** One thread running through the cuts of its call without interruption,
    while no other thread holds the guard, performs [runStdFunction]. *)
Lemma alone_is_runStdFunction (s : Sys) (t : thread) (func : Z) :
  pcs s !! t = None -> initializing s = None ->
  world (run (alone t func) s) = world_of (runStdFunction t func (world s)).
Proof.
  intros Hpc Hi. unfold run, alone, runStdFunction. cbn [foldl].
  assert (E1 : step s (Enter t func)
               = {| world := world s; initializing := initializing s;
                    pcs := <[t := AtInit func]> (pcs s);
                    stores := stores s; failed := failed s |}).
  { unfold step. now rewrite Hpc. }
  rewrite E1. clear E1.
  destruct (method_static (world s)) as [m |] eqn:Hm; cbn [bind].
  - (* the reference is cached: read it, invoke *)
    assert (E2 : step {| world := world s; initializing := initializing s;
                         pcs := <[t := AtInit func]> (pcs s);
                         stores := stores s; failed := failed s |}
                      (Advance t)
                 = {| world := world s; initializing := initializing s;
                      pcs := <[t := HasMethod func m]> (<[t := AtInit func]> (pcs s));
                      stores := stores s; failed := failed s |}).
    { unfold step, advance. cbn [pcs world]. rewrite lookup_insert_eq, Hm.
      reflexivity. }
    rewrite E2. clear E2.
    unfold step at 2. unfold advance at 1. cbn [pcs world].
    rewrite lookup_insert_eq.
    unfold step, advance. cbn [pcs world]. now rewrite lookup_delete_eq.
  - (* first call: take the guard, resolve, invoke *)
    assert (E2 : step {| world := world s; initializing := initializing s;
                         pcs := <[t := AtInit func]> (pcs s);
                         stores := stores s; failed := failed s |}
                      (Advance t)
                 = {| world := world s; initializing := Some t;
                      pcs := <[t := Resolving func]> (<[t := AtInit func]> (pcs s));
                      stores := stores s; failed := failed s |}).
    { unfold step, advance. cbn [pcs world initializing].
      rewrite lookup_insert_eq, Hm, Hi. reflexivity. }
    rewrite E2. clear E2.
    unfold step at 2. unfold advance at 1. cbn [pcs world].
    rewrite lookup_insert_eq.
    destruct (resolve_method_cases t (world s)) as [[m E] | E]; rewrite E; cbn [bind].
    + unfold step, advance. cbn [pcs world]. rewrite lookup_insert_eq. reflexivity.
    + unfold step, advance. cbn [pcs world]. now rewrite lookup_delete_eq.
Qed.

End InterleavingFacts.

Section InterleavingClaims.
Import JThreadScopeSupport Interleaving.

(** C6: whatever the number of threads and however their calls to
    [runStdFunction] interleave, [method] is initialized at most once, and
    every lookup made is that initialization or an attempt that failed; the
    first caller takes the guard of the uninitialized [method], at most one
    thread runs the initializer at a time, and when its lookup succeeds it
    stores the method it found; every thread past the declaration holds the
    reference that is cached, so no two of them hold distinct ones; once a
    reference is cached it is never replaced and nothing is looked up or
    initialized again, a caller arriving later reads it; and a call that
    runs through its cuts without interruption is a call of
    [runStdFunction]. *)
Theorem method_resolved_at_most_once (w0 : World) (sched : list Action) :
  (length (stores (reached w0 sched)) <= 1)%nat
  /\ lookups (world (reached w0 sched))
     = (lookups w0 + length (failed (reached w0 sched))
        + length (stores (reached w0 sched)))%nat
  /\ (forall t m, (t, m) ∈ stores (reached w0 sched) ->
        method_static (world (reached w0 sched)) = Some m)
  /\ (forall t1 f1 m1 t2 f2 m2,
        pcs (reached w0 sched) !! t1 = Some (HasMethod f1 m1) ->
        pcs (reached w0 sched) !! t2 = Some (HasMethod f2 m2) ->
        m1 = m2 /\ method_static (world (reached w0 sched)) = Some m1)
  /\ (forall t1 f1 t2 f2,
        pcs (reached w0 sched) !! t1 = Some (Resolving f1) ->
        pcs (reached w0 sched) !! t2 = Some (Resolving f2) -> t1 = t2)
  /\ (forall m more,
        method_static (world (reached w0 sched)) = Some m ->
        method_static (world (reached w0 (sched ++ more))) = Some m
        /\ lookups (world (reached w0 (sched ++ more)))
           = lookups (world (reached w0 sched))
        /\ stores (reached w0 (sched ++ more)) = stores (reached w0 sched))
  /\ (forall t f,
        method_static (world (reached w0 sched)) = None ->
        initializing (reached w0 sched) = None ->
        pcs (reached w0 sched) !! t = Some (AtInit f) ->
        initializing (step (reached w0 sched) (Advance t)) = Some t
        /\ pcs (step (reached w0 sched) (Advance t)) !! t = Some (Resolving f)
        /\ world (step (reached w0 sched) (Advance t)) = world (reached w0 sched))
  /\ (forall t f m,
        pcs (reached w0 sched) !! t = Some (Resolving f) ->
        Jvm.find_static_method (jvm (world (reached w0 sched)))
          kJavaDescriptor dispatch_method = Some m ->
        method_static (world (step (reached w0 sched) (Advance t))) = Some m
        /\ stores (step (reached w0 sched) (Advance t))
           = stores (reached w0 sched) ++ [(t, m)]
        /\ lookups (world (step (reached w0 sched) (Advance t)))
           = S (lookups (world (reached w0 sched)))
        /\ pcs (step (reached w0 sched) (Advance t)) !! t = Some (HasMethod f m)
        /\ initializing (step (reached w0 sched) (Advance t)) = None)
  /\ (forall t f m,
        method_static (world (reached w0 sched)) = Some m ->
        pcs (reached w0 sched) !! t = Some (AtInit f) ->
        world (step (reached w0 sched) (Advance t)) = world (reached w0 sched)
        /\ pcs (step (reached w0 sched) (Advance t)) !! t = Some (HasMethod f m))
  /\ (forall t func,
        pcs (reached w0 sched) !! t = None ->
        initializing (reached w0 sched) = None ->
        world (run (alone t func) (reached w0 sched))
        = world_of (runStdFunction t func (world (reached w0 sched)))).
Proof.
  pose proof (run_inv (lookups w0) sched (start w0) (start_inv w0)) as Hinv.
  fold (reached w0 sched) in Hinv.
  split; [apply (stored_once _ _ Hinv) |].
  split; [apply (lookups_counted _ _ Hinv) |].
  split; [apply (stored_is_cached _ _ Hinv) |].
  split.
  { intros t1 f1 m1 t2 f2 m2 H1 H2.
    pose proof (past_reads_cache _ _ Hinv t1 f1 m1 H1) as E1.
    pose proof (past_reads_cache _ _ Hinv t2 f2 m2 H2) as E2.
    split; [congruence | exact E1]. }
  split.
  { intros t1 f1 t2 f2 H1 H2.
    pose proof (resolving_holder _ _ Hinv t1 f1 H1) as E1.
    pose proof (resolving_holder _ _ Hinv t2 f2 H2) as E2.
    congruence. }
  split.
  { intros m more Hm. unfold reached, run. rewrite foldl_app.
    apply (run_cached (lookups w0) more m _ Hinv Hm). }
  split; [intros t f; apply first_caller_takes_guard |].
  split; [intros t f m; apply guard_holder_stores |].
  split; [intros t f m; apply later_caller_reads_cache |].
  intros t func. apply alone_is_runStdFunction.
Qed.

(** Two threads racing for the first call: thread 2 reaches the
    declaration while thread 1 initializes and has to wait; both end up
    with the one reference, after one lookup. *)
Example race_of_two_first_callers :
  stores (reached Process.ready
            [Enter 1%nat Sample.func_addr; Enter 2%nat Sample.func_addr;
             Advance 1%nat; Advance 2%nat; Advance 1%nat; Advance 2%nat])
  = [(1%nat, dispatch_method)]
  /\ lookups (world (reached Process.ready
            [Enter 1%nat Sample.func_addr; Enter 2%nat Sample.func_addr;
             Advance 1%nat; Advance 2%nat; Advance 1%nat; Advance 2%nat])) = 1%nat
  /\ pcs (reached Process.ready
            [Enter 1%nat Sample.func_addr; Enter 2%nat Sample.func_addr;
             Advance 1%nat; Advance 2%nat; Advance 1%nat; Advance 2%nat]) !! 2%nat
     = Some (HasMethod Sample.func_addr dispatch_method).
Proof. repeat split; vm_compute; reflexivity. Qed.

(** Two calls whose lookup fails: each looks up, as two calls of
    [runStdFunction] in a row do, and nothing is cached. *)
Example failing_lookup_is_retried :
  lookups (world (reached
             (Sample.boot Sample.lp64 (Sample.vm_with Sample.stripped_class ∅) ∅)
             (alone 1%nat Sample.func_addr ++ alone 2%nat Sample.func_addr))) = 2%nat
  /\ lookups (perform_all [OpRunStdFunction 1%nat Sample.func_addr;
                           OpRunStdFunction 2%nat Sample.func_addr]
                (Sample.boot Sample.lp64 (Sample.vm_with Sample.stripped_class ∅) ∅))
     = 2%nat
  /\ stores (reached
               (Sample.boot Sample.lp64 (Sample.vm_with Sample.stripped_class ∅) ∅)
               (alone 1%nat Sample.func_addr ++ alone 2%nat Sample.func_addr)) = []
  /\ failed (reached
               (Sample.boot Sample.lp64 (Sample.vm_with Sample.stripped_class ∅) ∅)
               (alone 1%nat Sample.func_addr ++ alone 2%nat Sample.func_addr))
     = [1%nat; 2%nat].
Proof. repeat split; vm_compute; reflexivity. Qed.

End InterleavingClaims.

(* ===================================================================== *)
(** * Further properties of the callback token *)
(* ===================================================================== *)

(** X1: distinct closure addresses never share a token: on every pointer
    width and widening rule, two different valid addresses are cast to
    different tokens. *)
Theorem distinct_closures_distinct_tokens (a : Token.Abi) (p q : Z) :
  Token.valid_ptr a p -> Token.valid_ptr a q -> p <> q ->
  Token.ptr_to_jlong a p <> Token.ptr_to_jlong a q.
Proof.
  intros Hp Hq Hne E. apply Hne.
  rewrite <- (jlong_to_ptr_to_jlong a p Hp), <- (jlong_to_ptr_to_jlong a q Hq).
  now rewrite E.
Qed.

Lemma distinct_closures_distinct_tokens_witness :
  Token.valid_ptr Sample.ilp32 Sample.func_addr
  /\ Token.valid_ptr Sample.ilp32 (Sample.func_addr - 2147483648)
  /\ Token.ptr_to_jlong Sample.ilp32 Sample.func_addr
     <> Token.ptr_to_jlong Sample.ilp32 (Sample.func_addr - 2147483648).
Proof.
  split; [apply valid_ptrb_spec; reflexivity |].
  split; [apply valid_ptrb_spec; reflexivity |].
  apply (distinct_closures_distinct_tokens Sample.ilp32 Sample.func_addr
           (Sample.func_addr - 2147483648)).
  - apply valid_ptrb_spec. reflexivity.
  - apply valid_ptrb_spec. reflexivity.
  - discriminate.
Defined.

(* ===================================================================== *)
(** * Further properties of [Environment::current] *)
(* ===================================================================== *)

Section CurrentExtras.
Import Environment.

Lemma vm_queries_emit_query (t : thread) (w : World) :
  vm_queries (emit (EvGetEnv t) w) = S (vm_queries w).
Proof. unfold vm_queries. cbn. rewrite List.filter_app, length_app. cbn. lia. Qed.

Lemma failed_queries_count (n : nat) (t : thread) :
  length (List.filter is_query (failed_queries n t)) = n
  /\ length (List.filter is_log (failed_queries n t)) = n.
Proof. induction n as [| n [IH1 IH2]]; cbn; [auto | split; congruence]. Qed.

(** X2: a call to [current()] on thread [t] writes at most the slot of [t]:
    the slots of all other threads, the VM handle, the managed runtime (no
    thread is attached or detached), the method cache, the closures and
    their shared state stay as they are, and the VM is queried at most
    once. *)
Theorem current_touches_only_own_slot (t : thread) (w : World) :
  g_vm (world_of (current t w)) = g_vm w
  /\ jvm (world_of (current t w)) = jvm w
  /\ method_static (world_of (current t w)) = method_static w
  /\ heap (world_of (current t w)) = heap w
  /\ counter (world_of (current t w)) = counter w
  /\ (forall t', t' <> t -> tls_get t' (world_of (current t w)) = tls_get t' w)
  /\ (vm_queries w <= vm_queries (world_of (current t w)) <= vm_queries w + 1)%nat.
Proof.
  destruct (g_env_initialized w) eqn:Hi;
    [| rewrite (current_before_init t w Hi); cbn [world_of];
       repeat split; try reflexivity; lia].
  destruct (current_returns t w Hi) as (h & w' & E).
  destruct (current_frame t w h w' E) as (F1 & F2 & F3 & F4 & F5 & _).
  rewrite E. cbn [world_of].
  split; [exact F1 |]. split; [exact F2 |]. split; [exact F3 |].
  split; [exact F4 |]. split; [exact F5 |].
  destruct (current_cases t w Hi)
    as [[_ C] | [(_ & _ & C) | [(_ & _ & _ & C) | (e & _ & _ & _ & C)]]];
    rewrite C in E; inversion E; subst; clear E.
  - split; [reflexivity | lia].
  - split; [reflexivity | lia].
  - split; [reflexivity |].
    change (vm_queries (emit (EvLogError not_attached_msg) (emit (EvGetEnv t) w)))
      with (length (List.filter is_query
                      ((trace w ++ [EvGetEnv t]) ++ [EvLogError not_attached_msg]))).
    unfold vm_queries. rewrite !List.filter_app, !length_app. cbn. lia.
  - split.
    + intros t' Hne. unfold tls_get, tls_reset. cbn.
      rewrite lookup_insert_ne; [reflexivity | congruence].
    + change (vm_queries (tls_reset t (Z.pos e) (emit (EvGetEnv t) w)))
        with (vm_queries (emit (EvGetEnv t) w)).
      rewrite vm_queries_emit_query. lia.
Qed.

(** X3: a non-null handle that [current()] returns to thread [t] is the
    one in the slot of [t] or, when that slot is empty, the one the VM holds
    for [t]; in both cases it is in the slot of [t] afterwards. *)
Theorem current_returns_own_handle (t : thread) (w : World) (h : Z) (w' : World) :
  current t w = Ok h w' -> h <> nullptr ->
  ((tls_get t w = h /\ w' = w)
   \/ (tls_get t w = nullptr /\ g_vm w <> nullptr
       /\ exists e, Jvm.attached (jvm w) !! t = Some e /\ h = Z.pos e))
  /\ tls_get t w' = h.
Proof.
  intros E Hh. split; [| exact (current_caches t w h w' E Hh)].
  destruct (current_cases t w (current_ok_initialized t w h w' E))
    as [[_ C] | [(_ & _ & C) | [(_ & _ & _ & C) | (e & Hs & Hv & Ha & C)]]];
    rewrite C in E; inversion E; subst; try congruence.
  - left. auto.
  - right. split; [exact Hs |]. split; [exact Hv |]. exists e. auto.
Qed.

Lemma current_returns_own_handle_witness :
  ((tls_get 1%nat Process.ready_attached = 9
    /\ world_of (current 1%nat Process.ready_attached) = Process.ready_attached)
   \/ (tls_get 1%nat Process.ready_attached = nullptr
       /\ g_vm Process.ready_attached <> nullptr
       /\ exists e, Jvm.attached (jvm Process.ready_attached) !! 1%nat = Some e
                    /\ 9 = Z.pos e))
  /\ tls_get 1%nat (world_of (current 1%nat Process.ready_attached)) = 9.
Proof.
  apply (current_returns_own_handle 1%nat Process.ready_attached 9
           (world_of (current 1%nat Process.ready_attached))).
  - vm_compute. reflexivity.
  - discriminate.
Defined.

(** X4: a failed resolution is not remembered.  On a thread with an empty
    slot that the VM does not know, with a VM handle registered, each of [n]
    calls in a row returns null after a query and an error log of its own:
    [n] queries, [n] log lines, the slot still empty. *)
Theorem current_failure_not_cached (n : nat) (t : thread) (w : World) :
  tls_get t w = nullptr -> g_vm w <> nullptr ->
  Jvm.attached (jvm w) !! t = None ->
  exists w',
    current_n n t w = Ok (repeat nullptr n) w'
    /\ trace w' = trace w ++ failed_queries n t
    /\ g_env w' = g_env w
    /\ vm_queries w' = (vm_queries w + n)%nat
    /\ length (logged w') = (length (logged w) + n)%nat.
Proof.
  revert w. induction n as [| n IH]; intros w Hs Hv Ha.
  - exists w. cbn. rewrite app_nil_r. repeat split; lia.
  - set (w1 := emit (EvLogError not_attached_msg) (emit (EvGetEnv t) w)).
    destruct (IH w1 Hs Hv Ha) as (w' & Hc & Htr & Henv & _ & _).
    exists w'. cbn [current_n repeat].
    rewrite (current_detached t w Hs Hv Ha). fold w1. cbn [bind]. rewrite Hc. cbn [bind].
    assert (Htr' : trace w' = trace w ++ failed_queries (S n) t).
    { rewrite Htr. cbn. now rewrite <- !app_assoc. }
    destruct (failed_queries_count (S n) t) as [Q L].
    split; [reflexivity |]. split; [exact Htr' |]. split; [exact Henv |].
    unfold vm_queries, logged. rewrite Htr', !List.filter_app, !length_app, Q, L.
    split; reflexivity.
Qed.

Lemma current_failure_not_cached_witness :
  exists w',
    current_n 3 1%nat Process.ready = Ok (repeat nullptr 3) w'
    /\ trace w' = trace Process.ready ++ failed_queries 3 1%nat
    /\ g_env w' = g_env Process.ready
    /\ vm_queries w' = (vm_queries Process.ready + 3)%nat
    /\ length (logged w') = (length (logged Process.ready) + 3)%nat.
Proof.
  apply (current_failure_not_cached 3 1%nat Process.ready).
  - reflexivity.
  - discriminate.
  - reflexivity.
Defined.

(** X5: a cached handle is never revalidated.  When the slot of the
    calling thread holds a non-null handle, [current()] returns it whatever
    the managed runtime says about the thread, also when the VM does not
    know the thread any more, and does not query the VM. *)
Theorem current_hit_ignores_attachment (t : thread) (w : World) (h : Z) (vm : Jvm.JavaVM) :
  tls_get t w = h -> h <> nullptr ->
  current t (set_jvm vm w) = Ok h (set_jvm vm w)
  /\ (Jvm.attached vm !! t = None ->
      returned (current t (set_jvm vm w)) = Some h
      /\ vm_queries (world_of (current t (set_jvm vm w))) = vm_queries w).
Proof.
  intros Hget Hh.
  assert (E : current t (set_jvm vm w) = Ok h (set_jvm vm w)).
  { rewrite <- Hget at 1.
    change (tls_get t w) with (tls_get t (set_jvm vm w)).
    apply current_hit. change (tls_get t (set_jvm vm w)) with (tls_get t w). congruence. }
  split; [exact E |]. intros _. rewrite E. split; reflexivity.
Qed.

Lemma current_hit_ignores_attachment_witness :
  current 1%nat (set_jvm (Sample.vm_with Sample.support_class ∅)
                   (world_of (current 1%nat Process.ready_attached)))
  = Ok 9 (set_jvm (Sample.vm_with Sample.support_class ∅)
            (world_of (current 1%nat Process.ready_attached)))
  /\ (Jvm.attached (Sample.vm_with Sample.support_class ∅) !! 1%nat = None ->
      returned (current 1%nat (set_jvm (Sample.vm_with Sample.support_class ∅)
                  (world_of (current 1%nat Process.ready_attached)))) = Some 9
      /\ vm_queries (world_of (current 1%nat
                       (set_jvm (Sample.vm_with Sample.support_class ∅)
                          (world_of (current 1%nat Process.ready_attached)))))
         = vm_queries (world_of (current 1%nat Process.ready_attached))).
Proof.
  apply (current_hit_ignores_attachment 1%nat
           (world_of (current 1%nat Process.ready_attached)) 9
           (Sample.vm_with Sample.support_class ∅)).
  - vm_compute. reflexivity.
  - discriminate.
Defined.

(** X6: a failure is not sticky.  After [current()] failed on a thread the
    VM did not know, a call made once the VM knows the thread (with handle
    [e]) returns [e] and caches it, and the call after that is a cache
    hit. *)
Theorem current_recovers_after_attach
    (t : thread) (w : World) (vm : Jvm.JavaVM) (e : positive) :
  tls_get t w = nullptr -> g_vm w <> nullptr ->
  Jvm.attached (jvm w) !! t = None ->
  Jvm.attached vm !! t = Some e ->
  exists w1 w2,
    current t w = Ok nullptr w1
    /\ current t (set_jvm vm w1) = Ok (Z.pos e) w2
    /\ tls_get t w2 = Z.pos e
    /\ current t w2 = Ok (Z.pos e) w2.
Proof.
  intros Hs Hv Ha Hvm.
  exists (emit (EvLogError not_attached_msg) (emit (EvGetEnv t) w)).
  eexists. split; [now apply current_detached |].
  split; [apply current_attached; [exact Hs | exact Hv | exact Hvm] |].
  split; [apply tls_get_reset |].
  match goal with |- current t ?w2 = _ =>
    pose proof (current_hit t w2) as Hhit
  end.
  rewrite tls_get_reset in Hhit. apply Hhit. discriminate.
Qed.

Lemma current_recovers_after_attach_witness :
  exists w1 w2,
    current 1%nat Process.ready = Ok nullptr w1
    /\ current 1%nat (set_jvm (jvm Process.ready_attached) w1) = Ok (Z.pos 9) w2
    /\ tls_get 1%nat w2 = Z.pos 9
    /\ current 1%nat w2 = Ok (Z.pos 9) w2.
Proof.
  apply (current_recovers_after_attach 1%nat Process.ready
           (jvm Process.ready_attached) 9%positive).
  - reflexivity.
  - discriminate.
  - reflexivity.
  - vm_compute. reflexivity.
Defined.

End CurrentExtras.

(* ===================================================================== *)
(** * Further properties of [JThreadScopeSupport] *)
(* ===================================================================== *)

Section BridgeExtras.
Import JThreadScopeSupport.

Lemma leave_bound (t : thread) (was : option positive) (vm : Jvm.JavaVM) :
  Jvm.bound (Jvm.leave t was vm) = Jvm.bound vm.
Proof. destruct was; reflexivity. Qed.

(** What one call does to the method cache and to the number of lookups,
    however it ends. *)
Lemma runStdFunction_lookups (t : thread) (func : Z) (w : World) :
  (forall m, method_static w = Some m ->
     method_static (world_of (runStdFunction t func w)) = Some m
     /\ lookups (world_of (runStdFunction t func w)) = lookups w)
  /\ (method_static w = None ->
      lookups (world_of (runStdFunction t func w)) = S (lookups w)
      /\ forall w1, runStdFunction t func w = Ok tt w1 ->
                    method_static w1 = Some dispatch_method).
Proof.
  unfold runStdFunction. split.
  - intros m Hm. rewrite Hm. cbn [bind].
    destruct (invoke_dispatch_frame t (Token.ptr_to_jlong (abi w) func) w)
      as (_ & F2 & F3).
    split; congruence.
  - intros Hm. rewrite Hm. unfold resolve_method.
    destruct (Jvm.find_static_method (jvm w) kJavaDescriptor dispatch_method)
      as [m |] eqn:Hfind; cbn [bind].
    + assert (m = dispatch_method) as ->.
      { unfold Jvm.find_static_method in Hfind.
        destruct (Jvm.classes (jvm w) !! kJavaDescriptor) as [c |]; [| discriminate].
        destruct (Jvm.declares (Jvm.static_methods c) dispatch_method);
          congruence. }
      set (w0 := set_method_static (Some dispatch_method) (emit (EvLookup t) w)).
      destruct (invoke_dispatch_frame t (Token.ptr_to_jlong (abi w0) func) w0)
        as (_ & F2 & F3).
      split.
      * rewrite F3. apply lookups_emit_lookup.
      * intros w1 E. rewrite E in F2. exact F2.
    + split; [apply lookups_emit_lookup | discriminate].
Qed.

(** A call for a live closure in a wired process with a VM handle
    registered returns, has called that closure and no other, and leaves the
    process wired and the VM handle registered. *)
Lemma runStdFunction_live (t : thread) (func : Z) (c : StdFunction) (w : World) :
  Token.valid_ptr (abi w) func -> heap w !! func = Some c -> wired w ->
  g_vm w <> nullptr ->
  exists w1,
    runStdFunction t func w = Ok tt w1
    /\ invocations (trace w1) = invocations (trace w) ++ [(t, func)]
    /\ wired w1 /\ is_Some (method_static w1)
    /\ heap w1 = heap w /\ abi w1 = abi w /\ g_vm w1 = g_vm w.
Proof.
  intros Hp Hheap Hwired Hreg.
  destruct (method_ready t w Hwired)
    as (m & w0 & evs & Hm & Hms & Habi & Hh & Hjvm & Hglob & _ & Htr & Hinv & _).
  destruct Hwired as [_ Hbound].
  set (w_in := emit (EvInvoke t func) (set_jvm (Jvm.enter t (jvm w0)) w0)).
  assert (Hi : g_env_initialized w_in = true).
  { change (g_env_initialized w_in) with (g_env_initialized w0).
    unfold g_env_initialized. rewrite Hglob. exact (initialized_of_g_vm w Hreg). }
  destruct (call_spec t c w_in Hi)
    as (w_c & cevs & Hcall & C1 & C2 & C3 & C4 & C5 & C6 & C7).
  exists (set_jvm (Jvm.leave t (Jvm.attached (jvm w0) !! t) (jvm w_c)) w_c).
  split.
  { unfold runStdFunction. rewrite Hm. cbn [bind].
    rewrite (invoke_dispatch_live t func c w0);
      [| now rewrite Habi | now rewrite Hh | now rewrite Hjvm].
    fold w_in. rewrite Hcall. reflexivity. }
  cbn [trace method_static heap abi set_jvm].
  split.
  { rewrite C6, invocations_app, (invocations_from_closure cevs C7), app_nil_r.
    cbn [w_in trace emit set_jvm].
    rewrite Htr, !invocations_app, Hinv, app_nil_r. reflexivity. }
  split.
  { split; cbn [method_static jvm set_jvm].
    - left. rewrite C3. cbn. rewrite Hms. eauto.
    - rewrite leave_bound, C2. cbn [w_in jvm emit set_jvm].
      rewrite enter_bound, Hjvm. exact Hbound. }
  split; [rewrite C3; cbn; rewrite Hms; eauto |].
  split; [rewrite C4; cbn; exact Hh |].
  split; [rewrite C5; cbn; exact Habi |].
  change (g_vm (set_jvm (Jvm.leave t (Jvm.attached (jvm w0) !! t) (jvm w_c)) w_c))
    with (g_vm w_c).
  rewrite C1. unfold g_vm. cbn. now rewrite Hglob.
Qed.

(** X7: the dispatch method is looked up by the first call that needs it
    and by no later one.  A call that returns leaves [method] set: to the
    dispatch method after exactly one lookup when it was not set, unchanged
    and without a lookup when it was; every call after that, on any thread
    and however it ends, looks nothing up and leaves [method] as it is. *)
Theorem runStdFunction_looks_up_once (t : thread) (func : Z) (w w1 : World) :
  runStdFunction t func w = Ok tt w1 ->
  (exists m, method_static w1 = Some m
     /\ (method_static w = None ->
         m = dispatch_method /\ lookups w1 = S (lookups w))
     /\ (forall m0, method_static w = Some m0 ->
         m = m0 /\ lookups w1 = lookups w))
  /\ (forall t2 func2,
        lookups (world_of (runStdFunction t2 func2 w1)) = lookups w1
        /\ method_static (world_of (runStdFunction t2 func2 w1)) = method_static w1).
Proof.
  intros E.
  destruct (runStdFunction_lookups t func w) as [Hsome Hnone].
  rewrite E in Hsome, Hnone. cbn [world_of] in Hsome, Hnone.
  assert (Hset : exists m, method_static w1 = Some m
            /\ (method_static w = None ->
                m = dispatch_method /\ lookups w1 = S (lookups w))
            /\ (forall m0, method_static w = Some m0 ->
                m = m0 /\ lookups w1 = lookups w)).
  { destruct (method_static w) as [m0 |] eqn:Hm.
    - destruct (Hsome m0 eq_refl) as [H1 H2]. exists m0.
      split; [exact H1 |]. split; [discriminate |].
      intros m1 E1. inversion E1; subst. auto.
    - destruct (Hnone eq_refl) as [H1 H2]. exists dispatch_method.
      split; [now apply H2 |]. split; [auto | discriminate]. }
  split; [exact Hset |].
  destruct Hset as (m & Hm1 & _). intros t2 func2.
  destruct (runStdFunction_lookups t2 func2 w1) as [Hsome1 _].
  destruct (Hsome1 m Hm1) as [H1 H2]. split; congruence.
Qed.

Lemma runStdFunction_looks_up_once_witness :
  (exists m, method_static (world_of (runStdFunction 1%nat Sample.func_addr Process.ready))
             = Some m
     /\ (method_static Process.ready = None ->
         m = dispatch_method
         /\ lookups (world_of (runStdFunction 1%nat Sample.func_addr Process.ready))
            = S (lookups Process.ready))
     /\ (forall m0, method_static Process.ready = Some m0 ->
         m = m0
         /\ lookups (world_of (runStdFunction 1%nat Sample.func_addr Process.ready))
            = lookups Process.ready))
  /\ (forall t2 func2,
        lookups (world_of (runStdFunction t2 func2
                   (world_of (runStdFunction 1%nat Sample.func_addr Process.ready))))
        = lookups (world_of (runStdFunction 1%nat Sample.func_addr Process.ready))
        /\ method_static (world_of (runStdFunction t2 func2
                   (world_of (runStdFunction 1%nat Sample.func_addr Process.ready))))
           = method_static (world_of (runStdFunction 1%nat Sample.func_addr Process.ready))).
Proof.
  apply (runStdFunction_looks_up_once 1%nat Sample.func_addr Process.ready
           (world_of (runStdFunction 1%nat Sample.func_addr Process.ready))).
  vm_compute. reflexivity.
Defined.

(** X8: calls made one after the other, in a wired process with a VM
    handle registered and for live closures, all return; the closures have
    been called once each, in the order of the calls and on the threads that
    made them, and the dispatch method has been looked up at most once for
    all of them together. *)
Theorem run_calls_in_order (calls : list (thread * Z)) (w : World) :
  wired w ->
  g_vm w <> nullptr ->
  Forall (fun c => Token.valid_ptr (abi w) (snd c) /\ is_Some (heap w !! snd c)) calls ->
  exists w',
    run_calls calls w = Ok tt w'
    /\ invocations (trace w') = invocations (trace w) ++ calls
    /\ (lookups w <= lookups w' <= lookups w + 1)%nat
    /\ (is_Some (method_static w) -> lookups w' = lookups w).
Proof.
  revert w. induction calls as [| [t func] calls IH]; intros w Hwired Hreg Hall.
  - exists w. cbn. rewrite app_nil_r. repeat split; lia.
  - inversion Hall as [| x l [Hp [c Hc]] Hrest]; subst. cbn [snd] in Hp, Hc.
    destruct (runStdFunction_live t func c w Hp Hc Hwired Hreg)
      as (w1 & E & Hinv & Hw1 & [m Hm1] & Hh & Habi & Hvm1).
    assert (Hall1 : Forall (fun c => Token.valid_ptr (abi w1) (snd c)
                                      /\ is_Some (heap w1 !! snd c)) calls)
      by (rewrite Hh, Habi; exact Hrest).
    assert (Hreg1 : g_vm w1 <> nullptr) by congruence.
    destruct (IH w1 Hw1 Hreg1 Hall1) as (w' & Erest & Hinv' & _ & Hsame).
    destruct (runStdFunction_lookups t func w) as [Hsome Hnone].
    rewrite E in Hsome, Hnone. cbn [world_of] in Hsome, Hnone.
    exists w'. cbn [run_calls]. rewrite E. cbn [bind].
    split; [exact Erest |].
    split; [rewrite Hinv', Hinv, <- app_assoc; reflexivity |].
    rewrite (Hsame (ex_intro _ m Hm1)).
    destruct (method_static w) as [m0 |] eqn:Hm0.
    + destruct (Hsome m0 eq_refl) as [_ Hl]. rewrite Hl. split; [lia | auto].
    + destruct (Hnone eq_refl) as [Hl _]. rewrite Hl.
      split; [lia | intros [x Hx]; discriminate].
Qed.

Lemma run_calls_in_order_witness :
  exists w',
    run_calls [(1%nat, Sample.func_addr); (2%nat, Sample.func_addr)] Process.ready
    = Ok tt w'
    /\ invocations (trace w')
       = invocations (trace Process.ready)
         ++ [(1%nat, Sample.func_addr); (2%nat, Sample.func_addr)]
    /\ (lookups Process.ready <= lookups w' <= lookups Process.ready + 1)%nat
    /\ (is_Some (method_static Process.ready) -> lookups w' = lookups Process.ready).
Proof.
  apply (run_calls_in_order [(1%nat, Sample.func_addr); (2%nat, Sample.func_addr)]
           Process.ready).
  - exact wired_ready.
  - discriminate.
  - constructor;
      [split; [apply valid_ptrb_spec; reflexivity | exists Sample.probe; reflexivity] |].
    constructor;
      [split; [apply valid_ptrb_spec; reflexivity | exists Sample.probe; reflexivity] |].
    constructor.
Defined.

End BridgeExtras.

(* ===================================================================== *)
(** * Closures and the thread-local cache *)
(* ===================================================================== *)

Section CacheExtras.
Import Environment JThreadScopeSupport.

Lemma vm_queries_emit_other (e : Event) (w : World) :
  is_query e = false -> vm_queries (emit e w) = vm_queries w.
Proof.
  intros He. unfold vm_queries. cbn.
  rewrite List.filter_app. cbn. rewrite He, app_nil_r. reflexivity.
Qed.

(** The queries of one call to [current()] that returns. *)
Lemma current_step (t : thread) (w : World) (h : Z) (w' : World) :
  current t w = Ok h w' ->
  (vm_queries w <= vm_queries w' <= vm_queries w + 1)%nat.
Proof.
  intros E. pose proof (current_ok_initialized t w h w' E) as Hi.
  destruct (current_cases t w Hi)
    as [[_ C] | [(_ & _ & C) | [(_ & _ & _ & C) | (e & _ & _ & _ & C)]]];
    rewrite C in E; inversion E; subst; clear E.
  - lia.
  - lia.
  - rewrite vm_queries_emit_other by reflexivity.
    rewrite vm_queries_emit_query. lia.
  - change (vm_queries (tls_reset t (Z.pos e) (emit (EvGetEnv t) w)))
      with (vm_queries (emit (EvGetEnv t) w)).
    rewrite vm_queries_emit_query. lia.
Qed.

(** A closure body started with the slot of its thread set: every call to
    [current()] in it is a cache hit. *)
Lemma call_hit (t : thread) (f : StdFunction) (h : Z) :
  h <> nullptr ->
  forall w w', tls_get t w = h -> call t f w = Ok tt w' ->
    exists k, handles_seen (trace w') = handles_seen (trace w) ++ repeat h k
              /\ vm_queries w' = vm_queries w /\ tls_get t w' = h.
Proof.
  intros Hh. induction f as [| k IH | k IH]; intros w w' Hs Hc.
  - inversion Hc; subst. exists 0%nat. cbn. now rewrite app_nil_r.
  - cbn [call] in Hc. exact (IH (set_counter (counter w + 1) w) w' Hs Hc).
  - cbn [call] in Hc.
    assert (Hne : tls_get t w <> nullptr) by congruence.
    rewrite (current_hit t w Hne), Hs in Hc. cbn [bind] in Hc.
    destruct (IH h (emit (EvCurrent t h) w) w' Hs Hc) as (n & Hseen & Hq & Hslot).
    exists (S n). split; [| split; [| exact Hslot]].
    + rewrite Hseen. cbn [trace emit]. rewrite handles_seen_app. cbn.
      rewrite <- app_assoc. reflexivity.
    + rewrite Hq. now apply vm_queries_emit_other.
Qed.

(** A closure body started where a handle can be resolved: it sees one
    handle throughout, after one query at most. *)
Lemma call_consistent (t : thread) (f : StdFunction) :
  forall w w', resolvable t w -> call t f w = Ok tt w' ->
    exists h k, h <> nullptr
      /\ handles_seen (trace w') = handles_seen (trace w) ++ repeat h k
      /\ (vm_queries w <= vm_queries w' <= vm_queries w + 1)%nat
      /\ (tls_get t w <> nullptr -> h = tls_get t w /\ vm_queries w' = vm_queries w).
Proof.
  induction f as [| k IH | k IH]; intros w w' Hr Hc.
  - inversion Hc; subst.
    destruct (Z.eq_dec (tls_get t w') nullptr) as [E | E].
    + exists 1, 0%nat. cbn. rewrite app_nil_r.
      split; [discriminate |]. split; [reflexivity |]. split; [lia | contradiction].
    + exists (tls_get t w'), 0%nat. cbn. rewrite app_nil_r.
      split; [exact E |]. split; [reflexivity |]. split; [lia | auto].
  - cbn [call] in Hc. exact (IH (set_counter (counter w + 1) w) w' Hr Hc).
  - cbn [call] in Hc.
    destruct (current_returns t w (resolvable_initialized t w Hr)) as (h & w1 & Hcur).
    rewrite Hcur in Hc. cbn [bind] in Hc.
    destruct (current_resolvable t w h w1 Hr Hcur) as [Hh _].
    pose proof (current_caches t w h w1 Hcur Hh) as Hslot.
    pose proof (current_step t w h w1 Hcur) as Hq.
    destruct (current_trace t w h w1 Hcur) as (evs & Htr & _ & Hseen1).
    destruct (call_hit t (k h) h Hh (emit (EvCurrent t h) w1) w' Hslot Hc)
      as (n & Hseen & Hq' & _).
    rewrite (vm_queries_emit_other (EvCurrent t h) w1 eq_refl) in Hq'.
    exists h, (S n). split; [exact Hh |]. split; [| split; [lia |]].
    + rewrite Hseen. cbn [trace emit].
      rewrite Htr, !handles_seen_app, Hseen1. cbn.
      rewrite app_nil_r, <- app_assoc. reflexivity.
    + intros Hne. rewrite (current_hit t w Hne) in Hcur.
      inversion Hcur; subst. split; [reflexivity | exact Hq'].
Qed.

(** A call for a live closure in a wired process whose thread-local store
    is there, cut at the entry of the closure body. *)
Lemma runStdFunction_split (t : thread) (func : Z) (c : StdFunction) (w : World) :
  Token.valid_ptr (abi w) func -> heap w !! func = Some c -> wired w ->
  g_env_initialized w = true ->
  exists w0 w_c,
    globals w0 = globals w /\ jvm w0 = jvm w
    /\ vm_queries w0 = vm_queries w
    /\ handles_seen (trace w0) = handles_seen (trace w)
    /\ call t c (emit (EvInvoke t func) (set_jvm (Jvm.enter t (jvm w0)) w0)) = Ok tt w_c
    /\ runStdFunction t func w
       = Ok tt (set_jvm (Jvm.leave t (Jvm.attached (jvm w) !! t) (jvm w_c)) w_c).
Proof.
  intros Hp Hheap [Hm Hbound] Hi. unfold runStdFunction.
  destruct (method_static w) as [m |] eqn:Hstatic; cbn [bind].
  - destruct (call_spec t c (emit (EvInvoke t func) (set_jvm (Jvm.enter t (jvm w)) w)) Hi)
      as (w_c & cevs & Hcall & _).
    exists w, w_c. repeat (split; [reflexivity |]).
    split; [exact Hcall |].
    rewrite (invoke_dispatch_live t func c w Hp Hheap Hbound), Hcall. reflexivity.
  - destruct Hm as [[m Hm] | [m Hm]]; [discriminate |].
    unfold resolve_method. rewrite Hm. cbn [bind].
    set (w0 := set_method_static (Some m) (emit (EvLookup t) w)).
    destruct (call_spec t c (emit (EvInvoke t func) (set_jvm (Jvm.enter t (jvm w0)) w0)) Hi)
      as (w_c & cevs & Hcall & _).
    exists w0, w_c. repeat (split; [reflexivity |]).
    split; [apply (vm_queries_emit_other (EvLookup t) w eq_refl) |].
    split; [cbn; rewrite handles_seen_app; cbn; now rewrite app_nil_r |].
    split; [exact Hcall |].
    rewrite (invoke_dispatch_live t func c w0 Hp Hheap Hbound), Hcall. reflexivity.
Qed.

(** X11: a closure run through [runStdFunction] sees one handle.  In a
    wired process with a VM handle registered or a handle cached for the
    calling thread, however often the closure calls [current()] it gets the
    same non-null handle every time, the VM is queried at most once during
    the whole call, and not at all when the thread had a cached handle,
    which is then the handle the closure gets. *)
Theorem closure_sees_one_handle (t : thread) (func : Z) (c : StdFunction) (w : World) :
  Token.valid_ptr (abi w) func -> heap w !! func = Some c -> wired w ->
  (g_vm w <> nullptr \/ tls_get t w <> nullptr) ->
  exists w' h k,
    runStdFunction t func w = Ok tt w'
    /\ h <> nullptr
    /\ handles_seen (trace w') = handles_seen (trace w) ++ repeat h k
    /\ (vm_queries w <= vm_queries w' <= vm_queries w + 1)%nat
    /\ (tls_get t w <> nullptr -> h = tls_get t w /\ vm_queries w' = vm_queries w).
Proof.
  intros Hp Hheap Hwired Hres.
  assert (Hi : g_env_initialized w = true).
  { destruct Hres as [Hv | Hs];
      [exact (initialized_of_g_vm w Hv) | exact (initialized_of_slot t w Hs)]. }
  destruct (runStdFunction_split t func c w Hp Hheap Hwired Hi)
    as (w0 & w_c & Hglob & Hjvm & Hq0 & Hseen0 & Hcall & Hrun).
  set (w_in := emit (EvInvoke t func) (set_jvm (Jvm.enter t (jvm w0)) w0)) in *.
  assert (Hslot : tls_get t w_in = tls_get t w)
    by (unfold tls_get, g_env; cbn; now rewrite Hglob).
  assert (Hvm : g_vm w_in = g_vm w) by (unfold g_vm; cbn; now rewrite Hglob).
  assert (Hr : resolvable t w_in).
  { destruct Hres as [Hv | Hs].
    - right. split; [congruence | cbn; apply enter_attached].
    - left. now rewrite Hslot. }
  destruct (call_consistent t c w_in w_c Hr Hcall) as (h & k & Hh & Hseen & Hq & Hhit).
  assert (Hqin : vm_queries w_in = vm_queries w).
  { unfold w_in. rewrite (vm_queries_emit_other (EvInvoke t func) _ eq_refl). exact Hq0. }
  assert (Hsin : handles_seen (trace w_in) = handles_seen (trace w)).
  { cbn [w_in trace emit set_jvm]. rewrite handles_seen_app, Hseen0. cbn.
    now rewrite app_nil_r. }
  eexists. exists h, k. split; [exact Hrun |].
  change (vm_queries (set_jvm (Jvm.leave t (Jvm.attached (jvm w) !! t) (jvm w_c)) w_c))
    with (vm_queries w_c).
  cbn [trace set_jvm].
  split; [exact Hh |]. split; [now rewrite Hseen, Hsin |].
  split; [lia |].
  intros Hne. rewrite <- Hslot in Hne. destruct (Hhit Hne) as [E1 E2].
  split; congruence.
Qed.

(** The closure that asks three times: on a thread the VM did not know, one
    query and three times the handle of the attachment; on a thread with
    handle 9 cached, no query and three times 9. *)
Lemma closure_sees_one_handle_witness :
  (exists w' h k,
     runStdFunction 1%nat Sample.func_addr Process.ready_thrice = Ok tt w'
     /\ h <> nullptr
     /\ handles_seen (trace w') = handles_seen (trace Process.ready_thrice) ++ repeat h k
     /\ (vm_queries Process.ready_thrice <= vm_queries w'
         <= vm_queries Process.ready_thrice + 1)%nat
     /\ (tls_get 1%nat Process.ready_thrice <> nullptr ->
         h = tls_get 1%nat Process.ready_thrice
         /\ vm_queries w' = vm_queries Process.ready_thrice))
  /\ handles_seen (trace (world_of
        (runStdFunction 1%nat Sample.func_addr Process.ready_thrice))) = [2; 2; 2]
  /\ vm_queries (world_of
        (runStdFunction 1%nat Sample.func_addr Process.ready_thrice)) = 1%nat
  /\ (exists w' h k,
        runStdFunction 1%nat Sample.func_addr Process.cached_thrice = Ok tt w'
        /\ h <> nullptr
        /\ handles_seen (trace w')
           = handles_seen (trace Process.cached_thrice) ++ repeat h k
        /\ (vm_queries Process.cached_thrice <= vm_queries w'
            <= vm_queries Process.cached_thrice + 1)%nat
        /\ (tls_get 1%nat Process.cached_thrice <> nullptr ->
            h = tls_get 1%nat Process.cached_thrice
            /\ vm_queries w' = vm_queries Process.cached_thrice))
  /\ tls_get 1%nat Process.cached_thrice = 9
  /\ handles_seen (trace (world_of
        (runStdFunction 1%nat Sample.func_addr Process.cached_thrice))) = [9; 9; 9]
  /\ vm_queries (world_of
        (runStdFunction 1%nat Sample.func_addr Process.cached_thrice))
     = vm_queries Process.cached_thrice.
Proof.
  split.
  { apply (closure_sees_one_handle 1%nat Sample.func_addr Sample.asks_thrice
             Process.ready_thrice).
    - apply valid_ptrb_spec. reflexivity.
    - reflexivity.
    - split; [right; vm_compute; eauto | vm_compute; reflexivity].
    - left. discriminate. }
  split; [vm_compute; reflexivity |]. split; [vm_compute; reflexivity |].
  split.
  { apply (closure_sees_one_handle 1%nat Sample.func_addr Sample.asks_thrice
             Process.cached_thrice).
    - apply valid_ptrb_spec. reflexivity.
    - reflexivity.
    - split; [right; vm_compute; eauto | vm_compute; reflexivity].
    - right. discriminate. }
  split; [reflexivity |]. split; vm_compute; reflexivity.
Defined.

End CacheExtras.
